(** * cpu.c: multicore support and per-cpu data

    A shallow embedding of [dp/core/cpu.c]: the cross-core run list
    ([cpu_run_on_one], [cpu_do_bookkeeping]), the bring-up of one core
    ([cpu_init_percpu], [cpu_init_one]) and the start-up of the subsystem
    ([parse_cpuinfo], [cpu_init]), followed by the properties the
    specification states about them.

    C integers are [Z]; the conversions the C code performs implicitly are
    written out ([to_uint], [to_int]).  Pointers are [Z] with [NULL = 0].
    A per-cpu variable ([DEFINE_PERCPU]) is a finite map from the core
    number to the value that core holds.  Every function threads the
    machine state through the monad [M]; [None] stands for an execution
    the C standard does not define (a wild pointer, an index out of
    bounds) or that never returns (a spin lock that is never released).
    The state carries a trace of the operations performed, in program
    order, so that statements about ordering can be made.  The globals
    [cpus_active] and [cpu_nr] are declared in cpu.c and used nowhere in
    it; they are left out. *)

From Stdlib Require Import ZArith List String Ascii Lia.
From stdpp Require Import base option list gmap.

Local Open Scope Z_scope.

(** ** Constants *)

Definition NULL : Z := 0.

(** Linux errno values, as included through [ix/errno.h]. *)
Definition EPERM : Z := 1.
Definition EIO : Z := 5.
Definition ENOMEM : Z := 12.
Definition EINVAL : Z := 22.
Definition ENOSYS : Z := 38.

Definition PERCPU_DUNE_LEN : Z := 512.
Definition MAX_RUNNERS : Z := 1024.
Definition PGSIZE_2MB : Z := 2 ^ 21.

(** ** Integer conversions *)

(** Conversion to [unsigned int]. *)
Definition to_uint (x : Z) : Z := x mod 2 ^ 32.

(** Conversion to [int] (two's complement wrap-around). *)
Definition to_int (x : Z) : Z := (x + 2 ^ 31) mod 2 ^ 32 - 2 ^ 31.

Definition div_up (x d : Z) : Z := (x + d - 1) / d.

(** ** Data *)

(** [struct cpu_runner] *)
Record cpu_runner := mk_cpu_runner {
  next : Z;
  func : Z;
  data : Z
}.

(** [struct cpu_runlist] *)
Record cpu_runlist := mk_cpu_runlist {
  lock : bool;
  next_runner : Z
}.

(** One slot of [apicid_map]. *)
Record apicid_entry := mk_apicid_entry {
  map_processor : Z;
  map_apicid : Z
}.

(** A pool of runners ([struct mempool]) is the list of the objects it
    can hand out, most recently returned first; see [mempool_alloc]. *)
Abbreviation mempool := (list Z) (only parsing).

(** The operations the code performs, as they appear in the trace. *)
Inductive event :=
| EvAlloc (pool p : Z)            (* mempool_alloc on core [pool]'s pool returned [p] *)
| EvFree (pool p : Z)             (* mempool_free of [p] to core [pool]'s pool *)
| EvLock (c : Z)                  (* spin_lock on core [c]'s run list *)
| EvUnlock (c : Z)                (* spin_unlock on core [c]'s run list *)
| EvPush (c p f d : Z)            (* runner [p], carrying [f] and [d], linked at the head of core [c]'s list *)
| EvTake (c p : Z)                (* core [c]'s list emptied, chain starting at [p] taken *)
| EvCall (c f d : Z)              (* [f(d)] called on core [c] *)
| EvSetAffinity (cpu : Z)         (* sched_setaffinity to the single core [cpu] *)
| EvGetcpu                        (* syscall(SYS_getcpu, ...) *)
| EvAllocPages (nr size node : Z) (* mem_alloc_pages_onnode(nr, size, node, MPOL_BIND) *)
| EvDuneEnter (pcpu : Z)          (* dune_enter_ex(pcpu) *)
| EvRegistry (cpu node : Z)       (* the per-cpu state of core [cpu] is being filled in *)
| EvMempoolCreate (cpu : Z)       (* mempool_create of the core's runner pool *)
| EvCreateDatastore (nr : Z)      (* mempool_create_datastore for [nr] runners *)
| EvFopen                         (* fopen of /proc/cpuinfo *)
| EvFclose                        (* fclose of /proc/cpuinfo *)
| EvLogErr
| EvLogInfo.

(** The globals of cpu.c, the runner objects they point to, and the trace. *)
Record state := mk_state {
  cpu_count : Z;
  percpu_offsets : gmap Z Z;
  cpu_numa_node : gmap Z Z;
  cpu_id : gmap Z Z;
  apicid : gmap Z Z;
  apicid_map : list apicid_entry;
  runlist : gmap Z cpu_runlist;
  runners_datastore : bool;
  runners_mempool : gmap Z mempool;
  heap : gmap Z cpu_runner;
  log_is_early_boot : bool;
  trace : list event
}.

Definition set_cpu_count (v : Z) (s : state) : state :=
  mk_state v (percpu_offsets s) (cpu_numa_node s) (cpu_id s) (apicid s)
    (apicid_map s) (runlist s) (runners_datastore s) (runners_mempool s)
    (heap s) (log_is_early_boot s) (trace s).

Definition set_percpu_offsets (v : gmap Z Z) (s : state) : state :=
  mk_state (cpu_count s) v (cpu_numa_node s) (cpu_id s) (apicid s)
    (apicid_map s) (runlist s) (runners_datastore s) (runners_mempool s)
    (heap s) (log_is_early_boot s) (trace s).

Definition set_cpu_numa_node (v : gmap Z Z) (s : state) : state :=
  mk_state (cpu_count s) (percpu_offsets s) v (cpu_id s) (apicid s)
    (apicid_map s) (runlist s) (runners_datastore s) (runners_mempool s)
    (heap s) (log_is_early_boot s) (trace s).

Definition set_cpu_id (v : gmap Z Z) (s : state) : state :=
  mk_state (cpu_count s) (percpu_offsets s) (cpu_numa_node s) v (apicid s)
    (apicid_map s) (runlist s) (runners_datastore s) (runners_mempool s)
    (heap s) (log_is_early_boot s) (trace s).

Definition set_apicid (v : gmap Z Z) (s : state) : state :=
  mk_state (cpu_count s) (percpu_offsets s) (cpu_numa_node s) (cpu_id s) v
    (apicid_map s) (runlist s) (runners_datastore s) (runners_mempool s)
    (heap s) (log_is_early_boot s) (trace s).

Definition set_apicid_map (v : list apicid_entry) (s : state) : state :=
  mk_state (cpu_count s) (percpu_offsets s) (cpu_numa_node s) (cpu_id s)
    (apicid s) v (runlist s) (runners_datastore s) (runners_mempool s)
    (heap s) (log_is_early_boot s) (trace s).

Definition set_runlist (v : gmap Z cpu_runlist) (s : state) : state :=
  mk_state (cpu_count s) (percpu_offsets s) (cpu_numa_node s) (cpu_id s)
    (apicid s) (apicid_map s) v (runners_datastore s) (runners_mempool s)
    (heap s) (log_is_early_boot s) (trace s).

Definition set_runners_datastore (v : bool) (s : state) : state :=
  mk_state (cpu_count s) (percpu_offsets s) (cpu_numa_node s) (cpu_id s)
    (apicid s) (apicid_map s) (runlist s) v (runners_mempool s)
    (heap s) (log_is_early_boot s) (trace s).

Definition set_runners_mempool (v : gmap Z mempool) (s : state) : state :=
  mk_state (cpu_count s) (percpu_offsets s) (cpu_numa_node s) (cpu_id s)
    (apicid s) (apicid_map s) (runlist s) (runners_datastore s) v
    (heap s) (log_is_early_boot s) (trace s).

Definition set_heap (v : gmap Z cpu_runner) (s : state) : state :=
  mk_state (cpu_count s) (percpu_offsets s) (cpu_numa_node s) (cpu_id s)
    (apicid s) (apicid_map s) (runlist s) (runners_datastore s)
    (runners_mempool s) v (log_is_early_boot s) (trace s).

Definition set_log_is_early_boot (v : bool) (s : state) : state :=
  mk_state (cpu_count s) (percpu_offsets s) (cpu_numa_node s) (cpu_id s)
    (apicid s) (apicid_map s) (runlist s) (runners_datastore s)
    (runners_mempool s) (heap s) v (trace s).

Definition set_trace (v : list event) (s : state) : state :=
  mk_state (cpu_count s) (percpu_offsets s) (cpu_numa_node s) (cpu_id s)
    (apicid s) (apicid_map s) (runlist s) (runners_datastore s)
    (runners_mempool s) (heap s) (log_is_early_boot s) v.

(** ** The state monad *)

Definition M (A : Type) : Type := state → option (A * state).

#[global] Instance M_ret : MRet M := λ A a s, Some (a, s).

#[global] Instance M_bind : MBind M := λ A B k m s,
  match m s with
  | Some (a, s') => k a s'
  | None => None
  end.

(** An execution with no defined outcome. *)
Definition stuck {A : Type} : M A := λ _, None.

Definition gets {A : Type} (f : state → A) : M A := λ s, Some (f s, s).

Definition modify (f : state → state) : M unit := λ s, Some (tt, f s).

Definition emit (e : event) : M unit :=
  modify (λ s, set_trace (trace s ++ [e]) s).

(** Reading the copy that core [c] has of a per-cpu variable; an access
    to the copy of a core that has no per-cpu area is not defined. *)
Definition percpu_read {T : Type} (var : state → gmap Z T) (c : Z) : M T :=
  λ s, match var s !! c with
       | Some v => Some (v, s)
       | None => None
       end.

(** The macros of [ix/cpu.h].  [percpu_get(var)] names no core: it is the
    copy of [var] of the core that executes it, here [self];
    [percpu_get_remote(var, cpu)] is the copy of core [cpu]. *)
Definition percpu_get {T : Type} (var : state → gmap Z T) (self : Z) : M T :=
  percpu_read var self.

Definition percpu_get_remote {T : Type} (var : state → gmap Z T) (cpu : Z)
    : M T :=
  percpu_read var cpu.

(** ** The pool service and the spin lock *)

(** Modelled from the spec: the fixed-capacity pool service of
    [ix/mempool.h], which is not among the sources; the spec gives its
    interface as [alloc(pool) -> object | empty] and
    [free(pool, object)].  [mempool_alloc] on the pool of core [c] yields
    the first free object, or [NULL] when there is none. *)
Definition mempool_alloc (c : Z) : M Z :=
  pool ← percpu_read runners_mempool c;
  match pool with
  | [] => emit (EvAlloc c NULL);; mret NULL
  | p :: rest =>
      modify (λ s, set_runners_mempool (<[c := rest]> (runners_mempool s)) s);;
      emit (EvAlloc c p);;
      mret p
  end.

(** Modelled from the spec: [free(pool, object)] of the same service.
    [mempool_free] on the pool of core [c] puts [p] back at the front of
    the pool; the contents of the object are dead from then on. *)
Definition mempool_free (c p : Z) : M unit :=
  pool ← percpu_read runners_mempool c;
  modify (λ s, set_runners_mempool (<[c := p :: pool]> (runners_mempool s)) s);;
  modify (λ s, set_heap (delete p (heap s)) s);;
  emit (EvFree c p).

(** Modelled from the spec: the spin lock of [ix/lock.h], of which the
    spec says that it serializes the producers against each other and
    against the consumer.  [spin_lock(&rlist->lock)] on the run list of
    core [c] takes a lock that is free; a lock that is held would never
    be released in a sequential execution. *)
Definition spin_lock (c : Z) : M unit :=
  rl ← percpu_read runlist c;
  if lock rl then stuck
  else
    modify (λ s, set_runlist (<[c := mk_cpu_runlist true (next_runner rl)]> (runlist s)) s);;
    emit (EvLock c).

Definition spin_unlock (c : Z) : M unit :=
  rl ← percpu_read runlist c;
  modify (λ s, set_runlist (<[c := mk_cpu_runlist false (next_runner rl)]> (runlist s)) s);;
  emit (EvUnlock c).

(** Reading the fields of [*p]. *)
Definition load_runner (p : Z) : M cpu_runner :=
  λ s, if bool_decide (p = NULL) then None
       else match heap s !! p with
            | Some r => Some (r, s)
            | None => None
            end.

(** Writing all three fields of [*p]. *)
Definition store_runner (p : Z) (r : cpu_runner) : M unit :=
  if bool_decide (p = NULL) then stuck
  else modify (λ s, set_heap (<[p := r]> (heap s)) s).

(** [rlist->next_runner = p] on the run list of core [c]. *)
Definition set_next_runner (c p : Z) : M unit :=
  rl ← percpu_read runlist c;
  modify (λ s, set_runlist (<[c := mk_cpu_runlist (lock rl) p]> (runlist s)) s).

(** ** Cross-core work dispatch *)

(** [cpu_run_on_one(func, data, cpu)], called on core [self].

<<
  if (cpu >= cpu_count) return -EINVAL;
  runner = mempool_alloc(&percpu_get(runners_mempool));
  if (!runner) return -ENOMEM;
  runner->func = func; runner->data = data; runner->next = NULL;
  rlist = &percpu_get_remote(runlist, cpu);
  spin_lock(&rlist->lock);
  runner->next = rlist->next_runner;
  rlist->next_runner = runner;
  spin_unlock(&rlist->lock);
  return 0;
>>

    [cpu] is an [unsigned int] and [cpu_count] an [int]: the comparison
    is made after converting [cpu_count] to [unsigned int]. *)
Definition cpu_run_on_one (self : Z) (func data : Z) (cpu : Z) : M Z :=
  count ← gets cpu_count;
  if bool_decide (to_uint count ≤ cpu) then mret (- EINVAL)
  else
    (* the pool is percpu_get(runners_mempool): that of the calling core *)
    runner ← mempool_alloc self;
    if bool_decide (runner = NULL) then mret (- ENOMEM)
    else
      store_runner runner (mk_cpu_runner NULL func data);;
      (* the list is percpu_get_remote(runlist, cpu): that of the target *)
      spin_lock cpu;;
      rlist ← percpu_get_remote runlist cpu;
      store_runner runner (mk_cpu_runner (next_runner rlist) func data);;
      set_next_runner cpu runner;;
      emit (EvPush cpu runner func data);;
      spin_unlock cpu;;
      mret 0.

(** A call of [cpu_run_on_one] that takes effect while a work function
    runs: made by the function itself ([sub_from] is then the core that
    runs it), or made on another core and ordered at this point by the
    lock of the run list. *)
Record submission := mk_submission {
  sub_from : Z;
  sub_func : Z;
  sub_data : Z;
  sub_cpu : Z
}.

Section Dispatch.

(** What a work function does to this subsystem when called with a
    given argument: the submissions that take effect during the call.
    The functions themselves are not part of cpu.c. *)
Variable body : Z → Z → list submission.

Fixpoint run_submissions (l : list submission) : M unit :=
  match l with
  | [] => mret tt
  | s :: l' =>
      cpu_run_on_one (sub_from s) (sub_func s) (sub_data s) (sub_cpu s);;
      run_submissions l'
  end.

(** [runner->func(runner->data)] on core [self]. *)
Definition call (self f d : Z) : M unit :=
  emit (EvCall self f d);;
  run_submissions (body f d).

(** The loop of [cpu_do_bookkeeping]:

<<
do {
  struct cpu_runner *last = runner;
  runner->func(runner->data);
  runner = runner->next;
  mempool_free(&percpu_get(runners_mempool), last);
} while (runner);
>>

    [fuel] bounds the number of iterations. *)
Fixpoint run_chain (fuel : nat) (self runner : Z) : M unit :=
  match fuel with
  | O => stuck
  | S fuel' =>
      r ← load_runner runner;
      call self (func r) (data r);;
      r' ← load_runner runner;
      (* the pool is percpu_get(runners_mempool): that of the draining core *)
      mempool_free self runner;;
      if bool_decide (next r' = NULL) then mret tt
      else run_chain fuel' self (next r')
  end.

(** [cpu_do_bookkeeping()], called on core [self].

<<
struct cpu_runlist *rlist = &percpu_get(runlist);
if (rlist->next_runner) {
  spin_lock(&rlist->lock);
  runner = rlist->next_runner;
  rlist->next_runner = NULL;
  spin_unlock(&rlist->lock);
  do { ... } while (runner);
}
>> *)
Definition cpu_do_bookkeeping (fuel : nat) (self : Z) : M unit :=
  rlist ← percpu_get runlist self;
  if bool_decide (next_runner rlist = NULL) then mret tt
  else
    spin_lock self;;
    rlist' ← percpu_get runlist self;
    set_next_runner self NULL;;
    emit (EvTake self (next_runner rlist'));;
    spin_unlock self;;
    run_chain fuel self (next_runner rlist').

End Dispatch.

(** ** Bring-up of one core *)

(** [MAP_FAILED] is [(void * ) -1]. *)
Definition MAP_FAILED : Z := 2 ^ 64 - 1.

(** What the services outside cpu.c answer during one bring-up. *)
Record bringup_env := mk_bringup_env {
  sched_setaffinity_ret : Z;
  getcpu_ret : Z;
  getcpu_cpu : Z;              (* the core the thread runs on *)
  getcpu_node : Z;             (* its NUMA node *)
  mem_alloc_pages_onnode : Z;  (* an address or [MAP_FAILED] *)
  dune_enter_ex_ret : Z;
  mempool_create_ret : Z;
  mempool_create_objs : list Z (* the objects of a pool that was created *)
}.

(** How a call ends: with a return value, or in a failed [assert]. *)
Inductive outcome :=
| Returned (ret : Z)
| AssertFailed.

Section BringUp.

(** [NCPU] comes from [ix/cpu.h]; the size of the per-cpu section,
    [__percpu_end - __percpu_start], is fixed by the linker. *)
Variable NCPU : nat.
Variable percpu_len : Z.

(** [cpu_init_percpu(cpu, numa_node)]: the address of the window, or
    [NULL].

<<
addr = mem_alloc_pages_onnode(div_up(len + PERCPU_DUNE_LEN, PGSIZE_2MB),
                              PGSIZE_2MB, numa_node, MPOL_BIND);
if (addr == MAP_FAILED) return NULL;
addr_percpu = addr + PERCPU_DUNE_LEN;
memset(addr_percpu, 0, len);
*((char ** ) addr) = addr_percpu;
percpu_offsets[cpu] = addr_percpu;
return addr;
>>

    The [memset] clears every per-cpu variable of the core.  Only
    [MAP_FAILED] is tested: with any other answer the function goes on
    to store through [addr], which is not defined when [addr] is the
    null pointer. *)
Definition cpu_init_percpu (env : bringup_env) (cpu numa_node : Z) : M Z :=
  emit (EvAllocPages (div_up (percpu_len + PERCPU_DUNE_LEN) PGSIZE_2MB)
          PGSIZE_2MB numa_node);;
  let addr := mem_alloc_pages_onnode env in
  if bool_decide (addr = MAP_FAILED) then mret NULL
  else if bool_decide (addr = NULL) then stuck
  else
    let addr_percpu := addr + PERCPU_DUNE_LEN in
    modify (λ s, set_cpu_numa_node (<[cpu := 0]> (cpu_numa_node s)) s);;
    modify (λ s, set_cpu_id (<[cpu := 0]> (cpu_id s)) s);;
    modify (λ s, set_apicid (<[cpu := 0]> (apicid s)) s);;
    modify (λ s, set_runlist (<[cpu := mk_cpu_runlist false NULL]> (runlist s)) s);;
    modify (λ s, set_runners_mempool (<[cpu := []]> (runners_mempool s)) s);;
    (* percpu_offsets has NCPU slots *)
    if bool_decide (Z.of_nat NCPU ≤ cpu) then stuck
    else
      modify (λ s, set_percpu_offsets (<[cpu := addr_percpu]> (percpu_offsets s)) s);;
      mret addr.

(** The search of [cpu_init_one]:

<<
for (i = 0; i < NCPU; i++)
  if (apicid_map[i].processor == cpu)
    break;
>>

    started at [i] with [n] iterations left; the value of [i] after the
    loop.  [processor] is an [int] and [cpu] an [unsigned int]. *)
Fixpoint find_processor (m : list apicid_entry) (cpu : Z) (n i : nat)
  : option nat :=
  match n with
  | O => Some i
  | S n' =>
      match m !! i with
      | None => None
      | Some e =>
          if bool_decide (to_uint (map_processor e) = cpu) then Some i
          else find_processor m cpu n' (S i)
      end
  end.

(** [cpu_init_one(cpu)], called on the thread that is to run core [cpu].

<<
if (cpu >= cpu_count) return -EINVAL;
ret = sched_setaffinity(0, sizeof(mask), &mask);   if (ret) return -EPERM;
ret = syscall(SYS_getcpu, &tmp, &numa_node, NULL); if (ret) return -ENOSYS;
if (cpu != tmp) { log_err(...); return -EINVAL; }
pcpu = cpu_init_percpu(cpu, numa_node);            if (!pcpu) return -ENOMEM;
ret = dune_enter_ex(pcpu);       if (ret) { log_err(...); return ret; }
percpu_get(cpu_id) = cpu;
percpu_get(cpu_numa_node) = numa_node;
for (i = 0; i < NCPU; i++) if (apicid_map[i].processor == cpu) break;
assert(i < NCPU);
percpu_get(apicid) = apicid_map[i].apicid;
log_is_early_boot = false;
ret = mempool_create(&percpu_get(runners_mempool), &runners_datastore,
                     MEMPOOL_SANITY_PERCPU, percpu_get(cpu_id));
if (ret) return ret;
log_info(...);
return 0;
>>

    From [dune_enter_ex] on, the per-cpu area of the thread is the window
    just allocated for core [cpu]. *)
Definition cpu_init_one (env : bringup_env) (cpu : Z) : M outcome :=
  count ← gets cpu_count;
  if bool_decide (to_uint count ≤ cpu) then mret (Returned (- EINVAL))
  else
    emit (EvSetAffinity cpu);;
    if bool_decide (sched_setaffinity_ret env ≠ 0) then mret (Returned (- EPERM))
    else
      emit EvGetcpu;;
      if bool_decide (getcpu_ret env ≠ 0) then mret (Returned (- ENOSYS))
      else
        let tmp := getcpu_cpu env in
        let numa_node := getcpu_node env in
        if bool_decide (cpu ≠ tmp) then
          emit EvLogErr;; mret (Returned (- EINVAL))
        else
          pcpu ← cpu_init_percpu env cpu numa_node;
          if bool_decide (pcpu = NULL) then mret (Returned (- ENOMEM))
          else
            emit (EvDuneEnter pcpu);;
            let ret := dune_enter_ex_ret env in
            if bool_decide (ret ≠ 0) then
              emit EvLogErr;; mret (Returned ret)
            else
              emit (EvRegistry cpu numa_node);;
              modify (λ s, set_cpu_id (<[cpu := cpu]> (cpu_id s)) s);;
              modify (λ s, set_cpu_numa_node (<[cpu := numa_node]> (cpu_numa_node s)) s);;
              map ← gets apicid_map;
              match find_processor map cpu NCPU 0 with
              | None => stuck
              | Some i =>
                  if bool_decide (i < NCPU)%nat then
                    match map !! i with
                    | None => stuck
                    | Some e =>
                        let id := to_uint (map_apicid e) in
                        modify (λ s, set_apicid (<[cpu := id]> (apicid s)) s);;
                        modify (set_log_is_early_boot false);;
                        emit (EvMempoolCreate cpu);;
                        let ret := mempool_create_ret env in
                        if bool_decide (ret ≠ 0) then mret (Returned ret)
                        else
                          modify (λ s, set_runners_mempool
                                         (<[cpu := mempool_create_objs env]>
                                            (runners_mempool s)) s);;
                          emit EvLogInfo;;
                          mret (Returned 0)
                    end
                  else mret AssertFailed
              end.

End BringUp.

(** ** Start-up of the subsystem *)

(** [isspace] and [isdigit] in the C locale. *)
Definition isspace (c : ascii) : bool :=
  let n := nat_of_ascii c in
  Nat.eqb n 32 || (Nat.leb 9 n && Nat.leb n 13).

Definition isdigit (c : ascii) : bool :=
  let n := nat_of_ascii c in
  Nat.leb 48 n && Nat.leb n 57.

Fixpoint skip_space (s : list ascii) : list ascii :=
  match s with
  | c :: s' => if isspace c then skip_space s' else s
  | [] => []
  end.

Fixpoint skip_word (s : list ascii) : list ascii :=
  match s with
  | c :: s' => if isspace c then s else skip_word s'
  | [] => []
  end.

Fixpoint read_digits (s : list ascii) (acc : Z) : Z :=
  match s with
  | c :: s' =>
      if isdigit c then read_digits s' (10 * acc + (Z.of_nat (nat_of_ascii c) - 48))
      else acc
  | [] => acc
  end.

(** A number as [strtol] returns it: a [long], the nearest one when the
    number is out of range. *)
Definition to_long_saturated (x : Z) : Z :=
  Z.max (- 2 ^ 63) (Z.min (2 ^ 63 - 1) x).

(** The conversion [%d]: white space, an optional sign, at least one
    digit.  The C library reads the number as a [long] and stores it in
    an [int]. *)
Definition scan_int (s : list ascii) : option Z :=
  let s := skip_space s in
  let '(negative, s) :=
    match s with
    | "-"%char :: s' => (true, s')
    | "+"%char :: s' => (false, s')
    | _ => (false, s)
    end in
  match s with
  | c :: _ =>
      if isdigit c then
        let v := read_digits s 0 in
        Some (to_int (to_long_saturated
                        (if negative : bool then - v else v)))
      else None
  | [] => None
  end.

(** [sscanf(buf, "%*s : %d", &x)]: [Some x] when it returns 1, [None]
    when it returns anything else. *)
Definition sscanf_field (buf : string) : option Z :=
  match skip_space (list_ascii_of_string buf) with
  | [] => None
  | s =>
      match skip_space (skip_word s) with
      | ":"%char :: s' => scan_int s'
      | _ => None
      end
  end.

(** [/proc/cpuinfo] as the program sees it: whether [fopen] succeeds,
    the buffers the successive calls of [fgets] fill, and whether the
    call of [fgets] that fails does so at the end of the file. *)
Record cpuinfo := mk_cpuinfo {
  fopen_ok : bool;
  fgets_lines : list string;
  ends_at_eof : bool
}.

Section Init.

Variable NCPU : nat.

(** The loop of [parse_cpuinfo] over the lines that remain; [processor]
    and [count] are the locals of that name, the result is [ret].

<<
while (true) {
  if (!fgets(buf, sizeof(buf), f)) {
    if (feof(f)) break;
    ret = -EIO; goto out;
  }
  if (!strncmp(buf, "processor", strlen("processor"))) {
    tokens = sscanf(buf, "%*s : %d", &processor);
    if (tokens != 1) { ret = -EIO; goto out; }
  }
  if (!strncmp(buf, "apicid", strlen("apicid"))) {
    tokens = sscanf(buf, "%*s : %d", &apicid);
    if (tokens != 1) { ret = -EIO; goto out; }
    apicid_map[count].processor = processor;
    apicid_map[count].apicid = apicid;
    count++;
  }
}
>>

    [apicid_map] has [NCPU] slots. *)
Fixpoint scan_cpuinfo (lines : list string) (at_eof : bool)
    (processor : Z) (count : nat) : M Z :=
  match lines with
  | [] => if at_eof then mret 0 else mret (- EIO)
  | buf :: rest =>
      let is_processor := String.prefix "processor" buf in
      let is_apicid := String.prefix "apicid" buf in
      match (if is_processor then sscanf_field buf else Some processor) with
      | None => mret (- EIO)
      | Some processor' =>
          if is_apicid then
            match sscanf_field buf with
            | None => mret (- EIO)
            | Some apicid =>
                if bool_decide (NCPU ≤ count)%nat then stuck
                else
                  modify (λ s, set_apicid_map
                                 (<[count := mk_apicid_entry processor' apicid]>
                                    (apicid_map s)) s);;
                  scan_cpuinfo rest at_eof processor' (S count)
            end
          else scan_cpuinfo rest at_eof processor' count
      end
  end.

(** [parse_cpuinfo()]; [processor0] is the value the uninitialised
    local [processor] happens to hold.  The file is closed on every path
    that opened it. *)
Definition parse_cpuinfo (f : cpuinfo) (processor0 : Z) : M Z :=
  emit EvFopen;;
  if fopen_ok f then
    ret ← scan_cpuinfo (fgets_lines f) (ends_at_eof f) processor0 0;
    emit EvFclose;;
    mret ret
  else mret (- EIO).

(** [cpu_init()]; [sysconf] returns a [long], [cpu_count] is an [int].

<<
cpu_count = sysconf(_SC_NPROCESSORS_CONF);
if (cpu_count <= 0 || cpu_count > NCPU) return -EINVAL;
log_info(...);
ret = mempool_create_datastore(&runners_datastore, MAX_RUNNERS, ...);
if (ret) return ret;
ret = parse_cpuinfo();
if (ret) return ret;
return 0;
>> *)
Definition cpu_init (sysconf_ret : Z) (create_datastore_ret : Z)
    (f : cpuinfo) (processor0 : Z) : M Z :=
  modify (set_cpu_count (to_int sysconf_ret));;
  count ← gets cpu_count;
  if bool_decide (count ≤ 0 ∨ count > Z.of_nat NCPU) then mret (- EINVAL)
  else
    emit EvLogInfo;;
    emit (EvCreateDatastore MAX_RUNNERS);;
    if bool_decide (create_datastore_ret ≠ 0) then mret create_datastore_ret
    else
      modify (set_runners_datastore true);;
      ret ← parse_cpuinfo f processor0;
      if bool_decide (ret ≠ 0) then mret ret
      else mret 0.

End Init.

(** * Notions used to state the properties *)

(** ** The steps of a bring-up *)

Inductive step :=
| AffinityBind
| TopologyQuery
| WindowAllocation
| PrivilegedEntry
| RegistryPopulation
| PoolInitialization.

Definition all_steps : list step :=
  [AffinityBind; TopologyQuery; WindowAllocation; PrivilegedEntry;
   RegistryPopulation; PoolInitialization].

(** The step an operation of the trace belongs to. *)
Definition step_of (e : event) : option step :=
  match e with
  | EvSetAffinity _ => Some AffinityBind
  | EvGetcpu => Some TopologyQuery
  | EvAllocPages _ _ _ => Some WindowAllocation
  | EvDuneEnter _ => Some PrivilegedEntry
  | EvRegistry _ _ => Some RegistryPopulation
  | EvMempoolCreate _ => Some PoolInitialization
  | _ => None
  end.

Definition steps_of (tr : list event) : list step := omap step_of tr.


(** Whether a step fails in the bring-up of core [cpu] from state [st],
    by what the services answer and what the table holds: the topology
    query fails when the system call does or when the thread is found on
    another core, window allocation when no pages are obtained, registry
    population when no slot of [apicid_map] is for the core, and each of
    the other steps when its service returns anything but 0. *)
Definition step_fails (env : bringup_env) (cpu : Z) (st : state) (s : step)
    : bool :=
  match s with
  | AffinityBind => bool_decide (sched_setaffinity_ret env ≠ 0)
  | TopologyQuery =>
      bool_decide (getcpu_ret env ≠ 0 ∨ getcpu_cpu env ≠ cpu)
  | WindowAllocation => bool_decide (mem_alloc_pages_onnode env = MAP_FAILED)
  | PrivilegedEntry => bool_decide (dune_enter_ex_ret env ≠ 0)
  | RegistryPopulation =>
      bool_decide (Forall (λ e, to_uint (map_processor e) ≠ cpu)
                     (apicid_map st))
  | PoolInitialization => bool_decide (mempool_create_ret env ≠ 0)
  end.

(** The first step that fails, if any. *)
Definition first_failure (env : bringup_env) (cpu : Z) (st : state)
    : option step :=
  List.find (step_fails env cpu st) all_steps.


(** The steps before registry population all succeed. *)
Definition reaches_registry (env : bringup_env) (cpu : Z) : Prop :=
  sched_setaffinity_ret env = 0 ∧
  getcpu_ret env = 0 ∧
  getcpu_cpu env = cpu ∧
  mem_alloc_pages_onnode env ≠ MAP_FAILED ∧
  mem_alloc_pages_onnode env ≠ NULL ∧
  dune_enter_ex_ret env = 0.

(** The slot of the table at index [k] is the first one for core [cpu]. *)
Definition first_entry_for (m : list apicid_entry) (cpu : Z) (k : nat)
    (e : apicid_entry) : Prop :=
  m !! k = Some e ∧
  to_uint (map_processor e) = cpu ∧
  ∀ j e', (j < k)%nat → m !! j = Some e' → to_uint (map_processor e') ≠ cpu.

(** ** Example data *)

Definition empty_state : state :=
  mk_state 0 ∅ ∅ ∅ ∅ [] ∅ false ∅ ∅ true [].

(** A machine of two cores after [cpu_init], with a table of [NCPU = 2]
    slots. *)
Definition two_core_table (m : list apicid_entry) : state :=
  set_apicid_map m (set_cpu_count 2 empty_state).

(** Answers with which every service succeeds for core 1. *)
Definition env_ok : bringup_env :=
  mk_bringup_env 0 0 1 0 4096 0 0 [201; 202].

(** Answers with which every service succeeds for core 0. *)
Definition env_core_0 : bringup_env :=
  mk_bringup_env 0 0 0 0 4096 0 0 [101; 102].

(** Answers with which privileged-mode entry fails for core 1. *)
Definition env_dune_fails : bringup_env :=
  mk_bringup_env 0 0 1 0 4096 (-1) 0 [201; 202].


(** A table that pairs core 0 with 10 and core 1 with 11. *)
Definition table_of_two : list apicid_entry :=
  [mk_apicid_entry 0 10; mk_apicid_entry 1 11].

(** ** The records of [/proc/cpuinfo] *)

(** A line that [parse_cpuinfo] accepts: when it starts with [processor]
    or with [apicid], the number after the colon can be read. *)
Definition well_formed_line (buf : string) : bool :=
  (if String.prefix "processor" buf
   then bool_decide (is_Some (sscanf_field buf)) else true)
  && (if String.prefix "apicid" buf
      then bool_decide (is_Some (sscanf_field buf)) else true).

(** The processor index in force after a line. *)
Definition processor_after (buf : string) (processor : Z) : Z :=
  if String.prefix "processor" buf
  then default processor (sscanf_field buf)
  else processor.

(** The processor index in force after some lines. *)
Definition last_processor (lines : list string) (processor : Z) : Z :=
  fold_left (λ p buf, processor_after buf p) lines processor.

(** The entries that accepted lines give rise to: one for each [apicid]
    line, paired with the processor index in force at that line, whether
    or not a [processor] line came just before it. *)
Fixpoint records (lines : list string) (processor : Z) : list apicid_entry :=
  match lines with
  | [] => []
  | buf :: rest =>
      let processor' := processor_after buf processor in
      if String.prefix "apicid" buf then
        match sscanf_field buf with
        | Some id => mk_apicid_entry processor' id :: records rest processor'
        | None => records rest processor'
        end
      else records rest processor'
  end.

(** A table whose slots from [count] on are overwritten with [rs]. *)
Definition overwrite (count : nat) (rs m : list apicid_entry)
    : list apicid_entry :=
  take count m ++ rs ++ drop (count + length rs) m.

(** Two identifier records after a single processor record. *)
Definition cpuinfo_out_of_order : cpuinfo :=
  mk_cpuinfo true ["processor	: 0"; "apicid		: 0"; "apicid		: 1"]%string true.

(** The records of core 1 alone. *)
Definition cpuinfo_of_core_1 : cpuinfo :=
  mk_cpuinfo true ["processor	: 1"; "apicid		: 11"]%string true.

(** Two processors, with no identifier record. *)
Definition cpuinfo_without_apicid : cpuinfo :=
  mk_cpuinfo true ["processor	: 0"; "processor	: 1"]%string true.

(** A processor record with nothing to read after the colon. *)
Definition cpuinfo_malformed : cpuinfo :=
  mk_cpuinfo true ["processor	: 0"; "apicid		: 0"; "processor	: x"]%string true.

(** The lines up to the first one that is not accepted. *)
Fixpoint accepted_lines (lines : list string) : list string :=
  match lines with
  | [] => []
  | buf :: rest =>
      if well_formed_line buf then buf :: accepted_lines rest else []
  end.

(** The conditions under which the scan fails: the file cannot be opened,
    a line is not accepted, or reading stops before the end of the file. *)
Definition scan_fails (f : cpuinfo) : bool :=
  negb (fopen_ok f)
  || negb (forallb well_formed_line (fgets_lines f))
  || negb (ends_at_eof f).

(** ** The run lists as linked chains *)

(** A queued unit of work: the runner that carries it, the function and
    its argument. *)
Definition item : Type := Z * Z * Z.

Definition item_ptr (i : item) : Z := i.1.1.
Definition item_call (i : item) : Z * Z := (i.1.2, i.2).

(** The runners linked from [p] through their [next] fields, up to
    [NULL], are those of [l], in this order. *)
Fixpoint chain (h : gmap Z cpu_runner) (p : Z) (l : list item) : Prop :=
  match l with
  | [] => p = NULL
  | i :: l' =>
      p = item_ptr i ∧ p ≠ NULL ∧
      ∃ r, h !! p = Some r ∧ (func r, data r) = item_call i ∧
           chain h (next r) l'
  end.

(** Following at most [fuel] links from [p]. *)
Fixpoint walk (h : gmap Z cpu_runner) (fuel : nat) (p : Z)
    : option (list item) :=
  if bool_decide (p = NULL) then Some []
  else
    match fuel with
    | O => None
    | S fuel' =>
        match h !! p with
        | None => None
        | Some r =>
            match walk h fuel' (next r) with
            | None => None
            | Some l => Some ((p, func r, data r) :: l)
            end
        end
    end.

(** The free objects of the pool of core [c]. *)
Definition pool (st : state) (c : Z) : list Z :=
  default [] (runners_mempool st !! c).

(** The work queued for core [c]. *)
Definition queue (st : state) (c : Z) : list item :=
  match runlist st !! c with
  | Some rl => default [] (walk (heap st) (size (heap st)) (next_runner rl))
  | None => []
  end.

(** Where a runner can be: taken off a list by a drain in progress, on
    the list of a core, or in the pool of a core. *)
Inductive place :=
| InFlight
| Queued (c : Z)
| Pooled (c : Z).

#[global] Instance place_eq_dec : EqDecision place.
Proof. solve_decision. Defined.

Definition layout (st : state) (Q : Z → list item) (inflight : list item)
    (pl : place) : list Z :=
  match pl with
  | InFlight => item_ptr <$> inflight
  | Queued c => item_ptr <$> Q c
  | Pooled c => pool st c
  end.

(** No runner is in two places or twice in one, and [NULL] is nowhere. *)
Definition separated (L : place → list Z) : Prop :=
  (∀ pl, NoDup (L pl)) ∧
  (∀ pl, NULL ∉ L pl) ∧
  (∀ pl1 pl2 p, p ∈ L pl1 → p ∈ L pl2 → pl1 = pl2).

(** The invariant of the dispatch state: [Q] gives the work queued for
    each core, [inflight] the chain from [runner] that a drain has taken
    and not yet run. *)
Record inv (st : state) (Q : Z → list item) (runner : Z)
    (inflight : list item) : Prop := mk_inv {
  inv_count : 0 ≤ cpu_count st < 2 ^ 31;
  inv_cores : ∀ c, 0 ≤ c < cpu_count st → is_Some (runlist st !! c);
  inv_dom : dom (runlist st) = dom (runners_mempool st);
  inv_lock : ∀ c rl, runlist st !! c = Some rl → lock rl = false;
  inv_queue : ∀ c rl,
    runlist st !! c = Some rl → chain (heap st) (next_runner rl) (Q c);
  inv_inflight : chain (heap st) runner inflight;
  inv_sep : separated (layout st Q inflight)
}.

(** The same, as a check that can be computed on a state in which no
    drain is in progress: every core below [cpu_count] has its per-cpu
    area, no lock is held, every list ends, and the runners on the lists
    and in the pools are distinct and not [NULL]. *)
Definition cores (st : state) : list Z := elements (dom (runlist st)).

Definition places (st : state) : list place :=
  (Queued <$> cores st) ++ (Pooled <$> cores st).

Definition held (st : state) (pl : place) : list Z :=
  layout st (queue st) [] pl.

Definition well_formed (st : state) : bool :=
  bool_decide (0 ≤ cpu_count st < 2 ^ 31)
  && bool_decide (Forall (λ c, is_Some (runlist st !! c))
                    (seqZ 0 (cpu_count st)))
  && bool_decide (dom (runlist st) = dom (runners_mempool st))
  && bool_decide (map_Forall
                    (λ _ rl, lock rl = false ∧
                             is_Some (walk (heap st) (size (heap st))
                                        (next_runner rl)))
                    (runlist st))
  && bool_decide (NoDup (places st ≫= held st))
  && bool_decide (NULL ∉ places st ≫= held st).

(** Every submission that takes effect during a call is made on a core
    that has its per-cpu area, for a target that is an [unsigned int]. *)
Definition bodies_on_cores (body : Z → Z → list submission) (st : state)
    : Prop :=
  ∀ f d s, s ∈ body f d →
           is_Some (runners_mempool st !! sub_from s) ∧ 0 ≤ sub_cpu s.

(** ** Reading the trace *)

(** The work linked onto the list of core [c], oldest first. *)
Definition pushes (c : Z) (tr : list event) : list item :=
  omap (λ e, match e with
             | EvPush c' p f d =>
                 if bool_decide (c' = c) then Some (p, f, d) else None
             | _ => None
             end) tr.

(** The calls made: core, function, argument. *)
Definition calls (tr : list event) : list (Z * Z * Z) :=
  omap (λ e, match e with
             | EvCall c f d => Some (c, f, d)
             | _ => None
             end) tr.

(** The objects returned to pools: pool, object. *)
Definition frees (tr : list event) : list (Z * Z) :=
  omap (λ e, match e with
             | EvFree c p => Some (c, p)
             | _ => None
             end) tr.

(** The objects obtained from pools: pool, object. *)
Definition allocs (tr : list event) : list (Z * Z) :=
  omap (λ e, match e with
             | EvAlloc c p =>
                 if bool_decide (p = NULL) then None else Some (c, p)
             | _ => None
             end) tr.

(** The number of entries of [l] that concern pool [c]. *)
Definition count_pool (c : Z) (l : list (Z * Z)) : nat :=
  length (filter (λ x, x.1 = c) l).

(** A sequence of calls of [cpu_run_on_one], with the values returned. *)
Fixpoint submit_each (l : list submission) : M (list Z) :=
  match l with
  | [] => mret []
  | s :: l' =>
      ret ← cpu_run_on_one (sub_from s) (sub_func s) (sub_data s) (sub_cpu s);
      rets ← submit_each l';
      mret (ret :: rets)
  end.

(** Following the locks through a trace, from the lock that is held, if
    any, to the lock that is held at the end.  A lock is taken only when
    none is held and released only by who holds it, a run list is
    changed only under its own lock, and a work function is called only
    when no lock is held; [None] when the trace breaks one of these
    rules. *)
Fixpoint locking (held : option Z) (tr : list event) : option (option Z) :=
  match tr with
  | [] => Some held
  | e :: tr' =>
      match e with
      | EvLock c =>
          if bool_decide (held = None) then locking (Some c) tr' else None
      | EvUnlock c =>
          if bool_decide (held = Some c) then locking None tr' else None
      | EvPush c _ _ _ | EvTake c _ =>
          if bool_decide (held = Some c) then locking held tr' else None
      | EvCall _ _ _ =>
          if bool_decide (held = None) then locking held tr' else None
      | _ => locking held tr'
      end
  end.

(** A trace that keeps these rules and starts and ends with no lock
    held. *)
Definition lock_discipline (tr : list event) : Prop :=
  locking None tr = Some None.

(** What a stretch of execution from [st] to [st'] with trace [tr] keeps
    and how it accounts for the pools: no per-cpu area appears or
    disappears, [cpu_count] stays, every pool has gained what was freed
    to it and lost what was allocated from it, and the locks were used
    as they should. *)
Definition accounted (st st' : state) (tr : list event) : Prop :=
  trace st' = trace st ++ tr ∧
  dom (runners_mempool st') = dom (runners_mempool st) ∧
  cpu_count st' = cpu_count st ∧
  (∀ c, (length (pool st' c) + count_pool c (allocs tr)
         = length (pool st c) + count_pool c (frees tr))%nat) ∧
  lock_discipline tr.

(** The work queued for each core after the pushes of [tr]. *)
Definition after_pushes (tr : list event) (Q : Z → list item)
    : Z → list item :=
  λ c, reverse (pushes c tr) ++ Q c.

(** The call made for an item on core [c], and the free that follows it. *)
Definition call_on (c : Z) (i : item) : Z * Z * Z :=
  (c, (item_call i).1, (item_call i).2).

Definition free_on (c : Z) (i : item) : Z * Z := (c, item_ptr i).

(** The trace of running a chain whose functions submit nothing. *)
Definition quiet_trace (c : Z) (l : list item) : list event :=
  l ≫= λ i, [EvCall c (item_call i).1 (item_call i).2; EvFree c (item_ptr i)].

(** The trace of a call of [cpu_run_on_one] that obtained runner [p]. *)
Definition submit_trace (s : submission) (p : Z) : list event :=
  [EvAlloc (sub_from s) p; EvLock (sub_cpu s);
   EvPush (sub_cpu s) p (sub_func s) (sub_data s); EvUnlock (sub_cpu s)].

(** The trace of a sequence of such calls. *)
Definition submits_trace (subs : list submission) (ps : list Z) : list event :=
  concat (zip_with submit_trace subs ps).

(** The item that a submission puts on a list. *)
Definition submitted_item (s : submission) (p : Z) : item :=
  (p, sub_func s, sub_data s).

(** ** Example machines *)

(** Two cores that are up, with empty lists: three free runners in the
    pool of core 0 and two in the pool of core 1. *)
Definition two_cores : state :=
  mk_state 2 ∅ ∅ ∅ ∅ []
    (<[0 := mk_cpu_runlist false NULL]> (<[1 := mk_cpu_runlist false NULL]> ∅))
    true
    (<[0 := [101; 102; 103]]> (<[1 := [201; 202]]> ∅))
    ∅ false [].

(** Work functions that submit nothing. *)
Definition quiet_body : Z → Z → list submission := λ _ _, [].

(** Function 13 submits function 21 to core 1, from core 1, each time it
    runs; the other functions submit nothing. *)
Definition resubmitting_body : Z → Z → list submission :=
  λ f d, if bool_decide (f = 13) then [mk_submission 1 21 d 1] else [].

(** The state a sequence of submissions leads to. *)
Definition state_after (subs : list submission) (st : state) : state :=
  match submit_each subs st with
  | Some (_, st') => st'
  | None => st
  end.

(** Work for core 1, submitted from core 0 and from core 1. *)
Definition work_A : submission := mk_submission 0 11 1 1.
Definition work_B : submission := mk_submission 1 12 2 1.
Definition work_C : submission := mk_submission 0 13 3 1.

(** A table of two slots, as it is when the program starts. *)
Definition fresh_table_of_two : state :=
  set_apicid_map (replicate 2 (mk_apicid_entry 0 0)) empty_state.

(** [cpu_init] for two cores with a table of two slots, followed by the
    bring-up of core 0: the value [cpu_init] returns, how the bring-up
    ends and the [apicid] core 0 has after it. *)
Definition start_core_0 (f : cpuinfo)
    : option (Z * outcome * option Z) :=
  fst <$> (ret ← cpu_init 2 2 0 f 0;
           out ← cpu_init_one 2 0 env_core_0 0;
           id ← gets (λ s, apicid s !! 0);
           mret (ret, out, id)) fresh_table_of_two.

(** A table of four slots, as it is when the program starts. *)
Definition fresh_table : state :=
  set_apicid_map (replicate 4 (mk_apicid_entry 0 0)) empty_state.


(** ** Lines of [/proc/cpuinfo] that the scan looks at *)

(** A line that starts with one of the two fields [parse_cpuinfo]
    compares the buffer with. *)
Definition relevant_line (buf : string) : bool :=
  String.prefix "processor" buf || String.prefix "apicid" buf.

(** The file with only these lines left. *)
Definition relevant_only (f : cpuinfo) : cpuinfo :=
  mk_cpuinfo (fopen_ok f) (List.filter relevant_line (fgets_lines f))
    (ends_at_eof f).

(** ** Further example data *)

(** Two cores that are up, with empty lists: the pool of core 0 has no
    free runner, that of core 1 has two. *)
Definition core_0_exhausted : state :=
  mk_state 2 ∅ ∅ ∅ ∅ []
    (<[0 := mk_cpu_runlist false NULL]> (<[1 := mk_cpu_runlist false NULL]> ∅))
    true
    (<[0 := []]> (<[1 := [201; 202]]> ∅))
    ∅ false [].

(** More work for core 1, submitted from core 0. *)
Definition work_D : submission := mk_submission 0 14 4 1.

(** The state a bring-up leads to. *)
Definition state_brought_up (NCPU : nat) (percpu_len : Z) (env : bringup_env)
    (cpu : Z) (st : state) : state :=
  match cpu_init_one NCPU percpu_len env cpu st with
  | Some (_, st') => st'
  | None => st
  end.

(** Answers with which the thread cannot be bound. *)
Definition env_no_affinity : bringup_env :=
  mk_bringup_env (-1) 0 1 0 4096 0 0 [201; 202].

(** A table of two slots of which only the first was written, for
    core 1. *)
Definition table_of_core_1 : list apicid_entry :=
  [mk_apicid_entry 1 11; mk_apicid_entry 0 0].

(** The records of two cores, each with a line of another field, and a
    second identifier record for core 1. *)
Definition cpuinfo_of_two : cpuinfo :=
  mk_cpuinfo true
    ["processor	: 0"; "model name	: x"; "apicid		: 10";
     "processor	: 1"; "model name	: x"; "apicid		: 11";
     "apicid		: 12"]%string
    true.
(** * Properties *)

(** Unfolding the sequencing of [M]. *)
Ltac unfold_M :=
  unfold mbind, M_bind, mret, M_ret, gets, modify, emit, stuck,
    percpu_get, percpu_get_remote, percpu_read in *.

Lemma to_uint_le (x : Z) : 0 ≤ x → to_uint x ≤ x.
Proof. intros Hx. unfold to_uint. apply Z.mod_le; lia. Qed.

Lemma to_uint_small (x : Z) : 0 ≤ x < 2 ^ 32 → to_uint x = x.
Proof. intros Hx. unfold to_uint. apply Z.mod_small. lia. Qed.

(** ** Invalid target *)

(** The range check of [cpu_run_on_one]. *)
Lemma cpu_run_on_one_range_check (self f d cpu : Z) (st : state) :
  to_uint (cpu_count st) ≤ cpu →
  cpu_run_on_one self f d cpu st = Some (- EINVAL, st).
Proof.
  intros Hge. unfold cpu_run_on_one. unfold_M.
  by rewrite bool_decide_eq_true_2.
Qed.

(** C8. A call of [cpu_run_on_one] whose target is not below [cpu_count]
    returns [-EINVAL] and leaves the whole state as it was: nothing is
    taken from a pool and no run list is touched.  [cpu_count] is not
    negative, as it is before [cpu_init] and after a [cpu_init] that
    succeeded. *)
Theorem cpu_run_on_one_invalid_target (self f d cpu : Z) (st : state) :
  0 ≤ cpu_count st →
  cpu_count st ≤ cpu →
  cpu_run_on_one self f d cpu st = Some (- EINVAL, st).
Proof.
  intros Hnonneg Hge. apply cpu_run_on_one_range_check.
  pose proof (to_uint_le _ Hnonneg). lia.
Qed.

(** ** Draining an empty run list *)

(** The test of [cpu_do_bookkeeping]. *)
Lemma cpu_do_bookkeeping_skip (body : Z → Z → list submission)
    (fuel : nat) (self : Z) (st : state) (rl : cpu_runlist) :
  runlist st !! self = Some rl →
  next_runner rl = NULL →
  cpu_do_bookkeeping body fuel self st = Some (tt, st).
Proof.
  intros Hrl Hhead. unfold cpu_do_bookkeeping. unfold_M.
  rewrite Hrl. rewrite bool_decide_eq_true_2 by exact Hhead. reflexivity.
Qed.

(** C10. When the run list of the calling core is empty,
    [cpu_do_bookkeeping] returns with the state unchanged: the trace has
    not grown, so no lock was taken, no function called and nothing
    freed, and the lists, the pools and the runners are as they were. *)
Theorem cpu_do_bookkeeping_empty (body : Z → Z → list submission)
    (fuel : nat) (self : Z) (st : state) (rl : cpu_runlist) :
  runlist st !! self = Some rl →
  next_runner rl = NULL →
  ∃ st',
    cpu_do_bookkeeping body fuel self st = Some (tt, st') ∧
    st' = st ∧
    trace st' = trace st ∧
    runlist st' = runlist st ∧
    runners_mempool st' = runners_mempool st ∧
    heap st' = heap st.
Proof.
  intros Hrl Hhead. exists st.
  rewrite (cpu_do_bookkeeping_skip body fuel self st rl Hrl Hhead).
  by split_and!.
Qed.

(** ** Core count out of range *)

(** C7. When the detected number of cores is not in [(0, NCPU]],
    [cpu_init] returns [-EINVAL] having only stored that number: the
    datastore is not created, [/proc/cpuinfo] is not opened, and
    [apicid_map] is as before. *)
Theorem cpu_init_count_out_of_range (NCPU : nat) (sysconf_ret ds_ret : Z)
    (f : cpuinfo) (processor0 : Z) (st : state) :
  ¬ (0 < to_int sysconf_ret ≤ Z.of_nat NCPU) →
  ∃ st',
    cpu_init NCPU sysconf_ret ds_ret f processor0 st = Some (- EINVAL, st') ∧
    st' = set_cpu_count (to_int sysconf_ret) st ∧
    apicid_map st' = apicid_map st ∧
    runners_datastore st' = runners_datastore st ∧
    runners_mempool st' = runners_mempool st ∧
    trace st' = trace st.
Proof.
  intros Hout. eexists. split; [|repeat split].
  unfold cpu_init. unfold_M. simpl.
  rewrite bool_decide_eq_true_2; [reflexivity|lia].
Qed.

(** ** Bring-up *)

Lemma find_processor_spec (m : list apicid_entry) (cpu : Z) (n i : nat) :
  (i + n ≤ length m)%nat →
  ∃ k, find_processor m cpu n i = Some k ∧ (i ≤ k ≤ i + n)%nat ∧
       (∀ j e, (i ≤ j < k)%nat → m !! j = Some e →
               to_uint (map_processor e) ≠ cpu) ∧
       ((k < i + n)%nat →
        ∃ e, m !! k = Some e ∧ to_uint (map_processor e) = cpu).
Proof.
  revert i. induction n as [|n IH]; intros i Hlen; simpl.
  - exists i. repeat split; try lia; intros; lia.
  - destruct (lookup_lt_is_Some_2 m i) as [e He]; [lia|].
    rewrite He. case_bool_decide as Hcpu.
    + exists i. split; [reflexivity|]. split; [lia|]. split.
      * intros; lia.
      * intros _. eauto.
    + destruct (IH (S i)) as (k & Hk & Hrange & Hbefore & Hat); [lia|].
      exists k. split; [exact Hk|]. split; [lia|]. split.
      * intros j e' Hj Hje'. destruct (decide (j = i)) as [->|Hne].
        -- congruence.
        -- apply (Hbefore j e'); [lia|exact Hje'].
      * intros Hlt. apply Hat. lia.
Qed.

Section BringUpProperties.

Variable NCPU : nat.
Variable percpu_len : Z.

(** The steps performed by a run, from the part of the trace it added. *)
Ltac trace_steps :=
  simpl; rewrite <- ?app_assoc; rewrite drop_app_length; reflexivity.


(** The whole of a bring-up that reaches registry population, in terms
    of the index the search stops at. *)
Lemma cpu_init_one_registry (env : bringup_env) (cpu : Z) (st : state) :
  cpu < to_uint (cpu_count st) →
  cpu < Z.of_nat NCPU →
  length (apicid_map st) = NCPU →
  reaches_registry env cpu →
  ∃ k out st',
    find_processor (apicid_map st) cpu NCPU 0 = Some k ∧
    cpu_init_one NCPU percpu_len env cpu st = Some (out, st') ∧
    cpu_id st' !! cpu = Some cpu ∧
    cpu_numa_node st' !! cpu = Some (getcpu_node env) ∧
    percpu_offsets st' !! cpu
      = Some (mem_alloc_pages_onnode env + PERCPU_DUNE_LEN) ∧
    ((NCPU ≤ k)%nat →
     out = AssertFailed ∧
     steps_of (drop (length (trace st)) (trace st')) = take 5 all_steps) ∧
    ((k < NCPU)%nat →
     ∃ e, apicid_map st !! k = Some e ∧
          out = Returned (mempool_create_ret env) ∧
          apicid st' !! cpu = Some (to_uint (map_apicid e)) ∧
          log_is_early_boot st' = false ∧
          steps_of (drop (length (trace st)) (trace st')) = all_steps).
Proof.
  intros Hcount Hcpu Hlen (Haff & Hget & Hmig & Hmap & Hnull & Hdune).
  destruct (find_processor_spec (apicid_map st) cpu NCPU 0)
    as (k & Hk & Hrange & _ & Hat); [lia|].
  exists k.
  unfold cpu_init_one, cpu_init_percpu. unfold_M. simpl.
  rewrite (bool_decide_eq_false_2 (to_uint (cpu_count st) ≤ cpu)) by lia.
  rewrite (bool_decide_eq_false_2 (sched_setaffinity_ret env ≠ 0))
    by (rewrite Haff; auto).
  rewrite (bool_decide_eq_false_2 (getcpu_ret env ≠ 0))
    by (rewrite Hget; auto).
  rewrite (bool_decide_eq_false_2 (cpu ≠ getcpu_cpu env))
    by (rewrite Hmig; auto).
  rewrite (bool_decide_eq_false_2 (mem_alloc_pages_onnode env = MAP_FAILED))
    by exact Hmap.
  rewrite !(bool_decide_eq_false_2 (mem_alloc_pages_onnode env = NULL))
    by exact Hnull.
  rewrite (bool_decide_eq_false_2 (Z.of_nat NCPU ≤ cpu)) by lia.
  rewrite ?(bool_decide_eq_false_2 (mem_alloc_pages_onnode env = NULL))
    by exact Hnull.
  rewrite (bool_decide_eq_false_2 (dune_enter_ex_ret env ≠ 0))
    by (rewrite Hdune; auto).
  simpl. rewrite Hk.
  destruct (decide (k < NCPU)%nat) as [Hlt|Hge].
  - destruct Hat as (e & He & Hproc); [lia|].
    rewrite (bool_decide_eq_true_2 _ Hlt). rewrite He.
    destruct (decide (mempool_create_ret env = 0)) as [Hpool|Hpool].
    + rewrite (bool_decide_eq_false_2 (mempool_create_ret env ≠ 0))
        by (rewrite Hpool; auto).
      do 2 eexists. split; [reflexivity|]. split; [reflexivity|].
      simpl. rewrite !lookup_insert_eq.
      split_and!; try reflexivity; [intros; lia|]. intros _. exists e.
      split_and!; try reflexivity; [by rewrite Hpool|trace_steps].
    + rewrite (bool_decide_eq_true_2 (mempool_create_ret env ≠ 0))
        by exact Hpool.
      do 2 eexists. split; [reflexivity|]. split; [reflexivity|].
      simpl. rewrite !lookup_insert_eq.
      split_and!; try reflexivity; [intros; lia|]. intros _. exists e.
      split_and!; try reflexivity. trace_steps.
  - rewrite (bool_decide_eq_false_2 _ Hge).
    do 2 eexists. split; [reflexivity|]. split; [reflexivity|].
    simpl. rewrite !lookup_insert_eq.
    split_and!; try reflexivity; [|intros; lia].
    intros _. split; [reflexivity|trace_steps].
Qed.


End BringUpProperties.

(** ** Topology discovery *)

Lemma set_apicid_map_id (st : state) : set_apicid_map (apicid_map st) st = st.
Proof. by destruct st. Qed.

Lemma overwrite_nil (count : nat) (m : list apicid_entry) :
  overwrite count [] m = m.
Proof. unfold overwrite. simpl. rewrite Nat.add_0_r. apply take_drop. Qed.

Lemma overwrite_cons (count : nat) (e : apicid_entry)
    (rs m : list apicid_entry) :
  (count < length m)%nat →
  overwrite (S count) rs (<[count := e]> m) = overwrite count (e :: rs) m.
Proof.
  intros Hlt. unfold overwrite.
  rewrite (take_S_r _ _ e) by (by apply list_lookup_insert_eq).
  rewrite take_insert_ge by lia.
  rewrite drop_insert_lt by lia.
  rewrite <- app_assoc. simpl.
  by replace (count + S (length rs))%nat with (S count + length rs)%nat by lia.
Qed.

Section InitProperties.

Variable NCPU : nat.

(** Scanning accepted lines records their entries and goes on with the
    lines that follow. *)
Lemma scan_cpuinfo_accepted (good tail : list string) (at_eof : bool)
    (processor : Z) (count : nat) (st : state) :
  Forall (λ buf, well_formed_line buf = true) good →
  (count + length (records good processor) ≤ NCPU)%nat →
  length (apicid_map st) = NCPU →
  scan_cpuinfo NCPU (good ++ tail) at_eof processor count st
  = scan_cpuinfo NCPU tail at_eof (last_processor good processor)
      (count + length (records good processor))
      (set_apicid_map
         (overwrite count (records good processor) (apicid_map st)) st).
Proof.
  intros Hgood. revert processor count st.
  induction Hgood as [|buf good Hbuf _ IH]; intros processor count st Hfit Hlen.
  - simpl. rewrite Nat.add_0_r, overwrite_nil, set_apicid_map_id. reflexivity.
  - unfold well_formed_line in Hbuf. apply andb_prop in Hbuf as [Hp Ha].
    cbn [app scan_cpuinfo records last_processor fold_left length] in *.
    fold (last_processor good (processor_after buf processor)).
    unfold processor_after in *.
    destruct (String.prefix "processor" buf);
      destruct (String.prefix "apicid" buf);
      try (apply bool_decide_eq_true_1 in Hp as [p Hp]);
      try (apply bool_decide_eq_true_1 in Ha as [a Ha]);
      rewrite ?Hp, ?Ha in *; simplify_eq; cbn [from_option id length] in *.
    all: try (rewrite IH by lia; reflexivity).
    all: unfold_M.
    all: rewrite bool_decide_eq_false_2 by lia.
    all: rewrite IH by (cbn [apicid_map set_apicid_map];
                        rewrite ?length_insert; lia).
    all: cbn [apicid_map set_apicid_map].
    all: rewrite overwrite_cons by lia.
    all: f_equal; lia.
Qed.

Lemma accepted_lines_split (lines : list string) :
  Forall (λ buf, well_formed_line buf = true) (accepted_lines lines) ∧
  ((forallb well_formed_line lines = true ∧ lines = accepted_lines lines) ∨
   (forallb well_formed_line lines = false ∧
    ∃ bad rest, well_formed_line bad = false ∧
                lines = accepted_lines lines ++ bad :: rest)).
Proof.
  induction lines as [|buf lines [IHgood IH]]; simpl.
  - split; [constructor|]. by left.
  - destruct (well_formed_line buf) eqn:Hbuf; simpl.
    + split; [by constructor|].
      destruct IH as [[Hall Heq]|(Hall & bad & rest & Hbad & Heq)].
      * left. split; [exact Hall|]. by rewrite <- Heq.
      * right. split; [exact Hall|]. exists bad, rest.
        split; [exact Hbad|]. by rewrite <- Heq.
    + split; [constructor|]. right. split; [reflexivity|]. by exists buf, lines.
Qed.

(** A line that is not accepted ends the scan with [-EIO]. *)
Lemma scan_cpuinfo_rejected (bad : string) (rest : list string)
    (at_eof : bool) (processor : Z) (count : nat) (st : state) :
  well_formed_line bad = false →
  scan_cpuinfo NCPU (bad :: rest) at_eof processor count st
  = Some (- EIO, st).
Proof.
  unfold well_formed_line. intros Hbad. cbn [scan_cpuinfo].
  destruct (String.prefix "processor" bad);
    destruct (String.prefix "apicid" bad);
    destruct (sscanf_field bad) as [v|] eqn:Hscan; try reflexivity.
  all: exfalso; revert Hbad; cbn [andb].
  all: rewrite ?bool_decide_eq_true_2 by eauto; discriminate.
Qed.

(** C3, as amended.  [parse_cpuinfo] returns [-EIO] exactly when the
    file cannot be opened, when a line that starts with [processor] or
    [apicid] has no number to read after the colon, or when reading
    stops before the end of the file; otherwise it returns 0.  The
    order of the records plays no part: every [apicid] line read before
    the scan stops is entered in the table, paired with the processor
    index most recently read. *)
Theorem parse_cpuinfo_result (f : cpuinfo) (processor0 : Z) (st : state) :
  length (apicid_map st) = NCPU →
  (length (records (accepted_lines (fgets_lines f)) processor0) ≤ NCPU)%nat →
  ∃ st',
    parse_cpuinfo NCPU f processor0 st
    = Some ((if scan_fails f then - EIO else 0), st') ∧
    apicid_map st'
    = (if fopen_ok f
       then overwrite 0 (records (accepted_lines (fgets_lines f)) processor0)
              (apicid_map st)
       else apicid_map st).
Proof.
  intros Hlen Hfit. unfold parse_cpuinfo, scan_fails. unfold_M. simpl.
  destruct (fopen_ok f); simpl; [|eexists; split; reflexivity].
  destruct (accepted_lines_split (fgets_lines f))
    as [Hgood [[Hall Heq]|(Hall & bad & rest & Hbad & Heq)]];
    rewrite Hall; simpl;
    set (good := accepted_lines (fgets_lines f)) in *;
    rewrite Heq.
  - pose proof (scan_cpuinfo_accepted good [] (ends_at_eof f) processor0 0
                  (set_trace (trace st ++ [EvFopen]) st) Hgood Hfit Hlen)
      as Hscan.
    rewrite app_nil_r in Hscan. rewrite Hscan.
    simpl. destruct (ends_at_eof f); eexists; split; reflexivity.
  - rewrite scan_cpuinfo_accepted by (simpl; first [assumption | lia]).
    rewrite scan_cpuinfo_rejected by exact Hbad.
    eexists; split; reflexivity.
Qed.

End InitProperties.

(** ** Chains of runners *)

Lemma chain_insert (h : gmap Z cpu_runner) (p q : Z) (r : cpu_runner)
    (l : list item) :
  p ∉ item_ptr <$> l → chain h q l → chain (<[p := r]> h) q l.
Proof.
  revert q. induction l as [|i l IH]; intros q Hnotin Hchain; [exact Hchain|].
  destruct Hchain as (Hq & Hnull & r' & Hr' & Hcall & Hrest).
  rewrite fmap_cons in Hnotin. apply not_elem_of_cons in Hnotin as [Hne Hnotin].
  split; [exact Hq|]. split; [exact Hnull|]. exists r'.
  split; [|split; [exact Hcall|by apply IH]].
  rewrite lookup_insert_ne; [exact Hr'|congruence].
Qed.

Lemma chain_delete (h : gmap Z cpu_runner) (p q : Z) (l : list item) :
  p ∉ item_ptr <$> l → chain h q l → chain (delete p h) q l.
Proof.
  revert q. induction l as [|i l IH]; intros q Hnotin Hchain; [exact Hchain|].
  destruct Hchain as (Hq & Hnull & r' & Hr' & Hcall & Hrest).
  rewrite fmap_cons in Hnotin. apply not_elem_of_cons in Hnotin as [Hne Hnotin].
  split; [exact Hq|]. split; [exact Hnull|]. exists r'.
  split; [|split; [exact Hcall|by apply IH]].
  rewrite lookup_delete_ne; [exact Hr'|congruence].
Qed.

Lemma chain_null (h : gmap Z cpu_runner) (l : list item) :
  chain h NULL l → l = [].
Proof. destruct l as [|i l]; [done|]. intros (_ & Hnull & _). done. Qed.

Lemma chain_nonnull (h : gmap Z cpu_runner) (p : Z) (l : list item) :
  chain h p l → p ≠ NULL → l ≠ [].
Proof. destruct l; [simpl; congruence|done]. Qed.

Lemma walk_chain (h : gmap Z cpu_runner) (fuel : nat) (p : Z) (l : list item) :
  walk h fuel p = Some l → chain h p l.
Proof.
  revert p l. induction fuel as [|fuel IH]; intros p l; simpl.
  - case_bool_decide; [|done]. intros [= <-]. done.
  - case_bool_decide as Hp; [intros [= <-]; done|].
    destruct (h !! p) as [r|] eqn:Hr; [|done].
    destruct (walk h fuel (next r)) as [l'|] eqn:Hwalk; [|done].
    intros [= <-]. split; [done|]. split; [done|]. exists r.
    split; [done|]. split; [done|]. by apply IH.
Qed.

(** ** Runners in distinct places *)

(** Moving the first runner of one place to the front of another. *)
Lemma separated_move (L L' : place → list Z) (A B : place) (p : Z)
    (rest : list Z) :
  separated L →
  A ≠ B →
  L A = p :: rest →
  L' A = rest →
  L' B = p :: L B →
  (∀ pl, pl ≠ A → pl ≠ B → L' pl = L pl) →
  separated L'.
Proof.
  intros (Hdup & Hnull & Hsep) HAB HA HA' HB' Hother.
  assert (Hin : ∀ pl q, q ∈ L' pl → q ∈ L pl ∨ (pl = B ∧ q = p)).
  { intros pl q Hq. destruct (decide (pl = A)) as [->|HnA].
    - left. rewrite HA. rewrite HA' in Hq. by apply elem_of_cons; right.
    - destruct (decide (pl = B)) as [->|HnB].
      + rewrite HB' in Hq. apply elem_of_cons in Hq as [->|Hq]; auto.
      + left. by rewrite <- Hother. }
  assert (HpA : p ∈ L A) by (rewrite HA; apply elem_of_cons; by left).
  assert (HpB : p ∉ L B).
  { intros HpB. apply HAB. by apply (Hsep A B p). }
  assert (Hprest : p ∉ rest).
  { specialize (Hdup A). rewrite HA in Hdup. by apply NoDup_cons in Hdup as []. }
  split; [|split].
  - intros pl. destruct (decide (pl = A)) as [->|HnA].
    + rewrite HA'. specialize (Hdup A). rewrite HA in Hdup.
      by apply NoDup_cons in Hdup as [].
    + destruct (decide (pl = B)) as [->|HnB].
      * rewrite HB'. apply NoDup_cons. split; [exact HpB|apply Hdup].
      * rewrite Hother by done. apply Hdup.
  - intros pl Hq. destruct (Hin pl NULL Hq) as [Hold|[_ Heq]].
    + by apply (Hnull pl).
    + apply (Hnull A). by rewrite Heq.
  - intros pl1 pl2 q H1 H2.
    destruct (Hin pl1 q H1) as [Hold1|[Hpl1 Hq1]];
      destruct (Hin pl2 q H2) as [Hold2|[Hpl2 Hq2]].
    + by apply (Hsep pl1 pl2 q).
    + subst pl2 q. assert (pl1 = A) as -> by (by apply (Hsep pl1 A p)).
      rewrite HA' in H1. done.
    + subst pl1 q. assert (pl2 = A) as -> by (by apply (Hsep pl2 A p)).
      rewrite HA' in H2. done.
    + congruence.
Qed.

(** Taking the whole content of a place off, while nothing is in flight. *)
Lemma separated_take (L L' : place → list Z) (B : place) :
  separated L →
  B ≠ InFlight →
  L InFlight = [] →
  L' InFlight = L B →
  L' B = [] →
  (∀ pl, pl ≠ InFlight → pl ≠ B → L' pl = L pl) →
  separated L'.
Proof.
  intros (Hdup & Hnull & Hsep) HB Hnone Htaken Hempty Hother.
  set (σ := λ pl, if decide (pl = InFlight) then B
                  else if decide (pl = B) then InFlight else pl).
  assert (Hσ : ∀ pl, L' pl = L (σ pl)).
  { intros pl. unfold σ. repeat case_decide; subst; try done.
    - by rewrite Hempty, Hnone.
    - by apply Hother. }
  assert (Hinj : ∀ pl1 pl2, σ pl1 = σ pl2 → pl1 = pl2).
  { intros pl1 pl2. unfold σ. repeat case_decide; congruence. }
  split; [|split].
  - intros pl. rewrite Hσ. apply Hdup.
  - intros pl. rewrite Hσ. apply Hnull.
  - intros pl1 pl2 p. rewrite !Hσ. intros H1 H2. apply Hinj. by apply (Hsep _ _ p).
Qed.

Lemma separated_ext (L L' : place → list Z) :
  (∀ pl, L' pl = L pl) → separated L → separated L'.
Proof.
  intros Heq (Hdup & Hnull & Hsep). split; [|split].
  - intros pl. rewrite Heq. apply Hdup.
  - intros pl. rewrite Heq. apply Hnull.
  - intros pl1 pl2 p. rewrite !Heq. apply Hsep.
Qed.

Lemma inv_ext (st : state) (Q Q' : Z → list item) (runner : Z)
    (inflight : list item) :
  (∀ c, Q' c = Q c) → inv st Q runner inflight → inv st Q' runner inflight.
Proof.
  intros Heq [Hcount Hcores Hdom Hlock Hqueue Hinfl Hsep].
  split; try done.
  - intros c rl Hrl. rewrite Heq. by apply Hqueue.
  - revert Hsep. apply separated_ext. intros [|c|c]; simpl; by rewrite ?Heq.
Qed.

(** ** From the computed check to the invariant *)

Lemma NoDup_bind_separated {A B : Type} (f : A → list B) (xs : list A) :
  NoDup (xs ≫= f) →
  (∀ x, x ∈ xs → NoDup (f x)) ∧
  (∀ x1 x2 p, x1 ∈ xs → x2 ∈ xs → p ∈ f x1 → p ∈ f x2 → x1 = x2).
Proof.
  induction xs as [|x xs IH]; simpl.
  - intros _. split; intros *; by rewrite ?elem_of_nil.
  - intros (Hx & Hdisj & Hrest)%NoDup_app. destruct (IH Hrest) as [IH1 IH2].
    split.
    + intros y [->|Hy]%elem_of_cons; auto.
    + intros x1 x2 p [->|H1]%elem_of_cons [->|H2]%elem_of_cons Hp1 Hp2; auto.
      * exfalso. apply (Hdisj p Hp1). apply list_elem_of_bind. eauto.
      * exfalso. apply (Hdisj p Hp2). apply list_elem_of_bind. eauto.
      * eauto.
Qed.

Lemma held_outside (st : state) (pl : place) :
  dom (runlist st) = dom (runners_mempool st) →
  pl ∉ places st → held st pl = [].
Proof.
  unfold places, cores, held, queue, pool. intros Hdom Hnotin.
  destruct pl as [|c|c]; simpl; [reflexivity| |].
  - destruct (runlist st !! c) as [rl|] eqn:Hrl; [|reflexivity].
    exfalso. apply Hnotin. apply elem_of_app. left.
    apply list_elem_of_fmap. exists c. split; [reflexivity|].
    apply elem_of_elements, elem_of_dom. eauto.
  - unfold pool.
    destruct (runners_mempool st !! c) as [l|] eqn:Hpool; [|reflexivity].
    exfalso. apply Hnotin. apply elem_of_app. right.
    apply list_elem_of_fmap. exists c. split; [reflexivity|].
    apply elem_of_elements. rewrite Hdom. apply elem_of_dom. eauto.
Qed.

Lemma well_formed_inv (st : state) :
  well_formed st = true → inv st (queue st) NULL [].
Proof.
  unfold well_formed. intros H.
  repeat (apply andb_prop in H as [H ?]).
  repeat match goal with
         | H : bool_decide _ = true |- _ => apply bool_decide_eq_true_1 in H
         end.
  rename select (NoDup _) into Hnodup.
  rename select (NULL ∉ _) into Hnull.
  rename select (map_Forall _ _) into Hlists.
  rename select (Forall _ _) into Hcores.
  rename select (dom _ = dom _) into Hdom.
  destruct (NoDup_bind_separated _ _ Hnodup) as [Hdup Hsep].
  assert (Hin : ∀ pl p, p ∈ held st pl → pl ∈ places st).
  { intros pl p Hp. destruct (decide (pl ∈ places st)) as [|Hout]; [done|].
    rewrite (held_outside st pl Hdom Hout) in Hp. by apply elem_of_nil in Hp. }
  split; try done.
  - intros c Hc. rewrite Forall_forall in Hcores. apply Hcores.
    apply elem_of_seqZ. lia.
  - intros c rl Hrl. by destruct (Hlists c rl Hrl).
  - intros c rl Hrl. destruct (Hlists c rl Hrl) as [_ [l Hl]].
    unfold queue. rewrite Hrl, Hl. simpl. by apply walk_chain in Hl.
  - change (layout st (queue st) []) with (held st). split; [|split].
    + intros pl. destruct (decide (pl ∈ places st)) as [|Hout]; [by apply Hdup|].
      rewrite (held_outside st pl Hdom Hout). constructor.
    + intros pl Hp. apply Hnull. apply list_elem_of_bind. exists pl.
      split; [done|]. by apply (Hin pl NULL).
    + intros pl1 pl2 p H1 H2. apply (Hsep pl1 pl2 p); eauto.
Qed.

(** ** Submitting work *)

Lemma pool_lookup (st : state) (c : Z) (l : list Z) :
  runners_mempool st !! c = Some l → pool st c = l.
Proof. unfold pool. by intros ->. Qed.

(** A call of [cpu_run_on_one] that finds a free runner in the pool of
    the calling core. *)
Lemma cpu_run_on_one_success (st : state) (Q : Z → list item) (runner : Z)
    (inflight : list item) (from f d cpu p : Z) (rest : list Z) :
  inv st Q runner inflight →
  0 ≤ cpu < cpu_count st →
  runners_mempool st !! from = Some (p :: rest) →
  ∃ st' rl,
    runlist st !! cpu = Some rl ∧
    cpu_run_on_one from f d cpu st = Some (0, st') ∧
    trace st'
    = trace st ++ [EvAlloc from p; EvLock cpu; EvPush cpu p f d; EvUnlock cpu] ∧
    runners_mempool st' = <[from := rest]> (runners_mempool st) ∧
    runlist st' = <[cpu := mk_cpu_runlist false p]> (runlist st) ∧
    heap st' = <[p := mk_cpu_runner (next_runner rl) f d]> (heap st) ∧
    cpu_count st' = cpu_count st ∧
    inv st' (λ c, if decide (c = cpu) then (p, f, d) :: Q c else Q c)
      runner inflight.
Proof.
  intros [Hcount Hcores Hdom Hlock Hqueue Hinfl Hsep] Hcpu Hpool.
  destruct (Hcores cpu Hcpu) as [rl Hrl].
  pose proof (Hlock cpu rl Hrl) as Hfree.
  assert (Hp : p ≠ NULL).
  { intros ->. destruct Hsep as (_ & Hnull & _). apply (Hnull (Pooled from)).
    simpl. rewrite (pool_lookup _ _ _ Hpool). by left. }
  exists (set_trace
            (trace st ++ [EvAlloc from p; EvLock cpu; EvPush cpu p f d; EvUnlock cpu])
            (set_runlist (<[cpu := mk_cpu_runlist false p]> (runlist st))
               (set_heap (<[p := mk_cpu_runner (next_runner rl) f d]> (heap st))
                  (set_runners_mempool (<[from := rest]> (runners_mempool st)) st)))),
    rl.
  split; [exact Hrl|]. split.
  { unfold cpu_run_on_one, mempool_alloc, store_runner, spin_lock,
      set_next_runner, spin_unlock. unfold_M. simpl.
    rewrite bool_decide_eq_false_2 by (rewrite to_uint_small; lia).
    rewrite Hpool. simpl.
    rewrite (bool_decide_eq_false_2 (p = NULL)) by exact Hp. simpl.
    rewrite Hrl, Hfree. simpl. repeat (rewrite lookup_insert_eq; simpl).
    rewrite !insert_insert_eq. rewrite <- !app_assoc. reflexivity. }
  simpl. split_and!; try reflexivity.
  assert (Hpooled : p ∈ layout st Q inflight (Pooled from)).
  { simpl. rewrite (pool_lookup _ _ _ Hpool). by left. }
  assert (Hnotq : ∀ c, p ∉ item_ptr <$> Q c).
  { intros c Hin. destruct Hsep as (_ & _ & Huniq).
    by specialize (Huniq (Pooled from) (Queued c) p Hpooled Hin). }
  assert (Hnotinfl : p ∉ item_ptr <$> inflight).
  { intros Hin. destruct Hsep as (_ & _ & Huniq).
    by specialize (Huniq (Pooled from) InFlight p Hpooled Hin). }
  split; simpl.
  - exact Hcount.
  - intros c Hc. apply lookup_insert_is_Some'. right. by apply Hcores.
  - rewrite (dom_insert_lookup_L (runlist st)) by eauto.
    rewrite (dom_insert_lookup_L (runners_mempool st)) by eauto.
    exact Hdom.
  - intros c rl' Hrl'. destruct (decide (c = cpu)) as [->|Hne].
    + rewrite lookup_insert_eq in Hrl'. by injection Hrl' as <-.
    + rewrite lookup_insert_ne in Hrl' by done. by apply (Hlock c).
  - intros c rl' Hrl'. destruct (decide (c = cpu)) as [->|Hne].
    + rewrite lookup_insert_eq in Hrl'. injection Hrl' as <-. simpl.
      split; [reflexivity|]. split; [exact Hp|].
      eexists. split; [apply lookup_insert_eq|]. split; [reflexivity|]. simpl.
      apply chain_insert; [apply Hnotq|by apply Hqueue].
    + rewrite lookup_insert_ne in Hrl' by done.
      apply chain_insert; [apply Hnotq|by apply Hqueue].
  - by apply chain_insert.
  - apply (separated_move (layout st Q inflight) _ (Pooled from) (Queued cpu)
             p rest Hsep); simpl.
    + discriminate.
    + by apply pool_lookup.
    + unfold pool. simpl. by rewrite lookup_insert_eq.
    + by rewrite decide_True.
    + intros [|c|c] HA HB; simpl.
      * reflexivity.
      * rewrite decide_False; [reflexivity|congruence].
      * unfold pool. simpl. rewrite lookup_insert_ne; [reflexivity|congruence].
Qed.

(** C1, as amended.  In a state in which every core below [cpu_count]
    is up and no lock is held, a call of [cpu_run_on_one] for a target
    below [cpu_count], made on a core whose pool has a free runner,
    returns 0: the runner is the first one of the pool of the core that
    makes the call, which loses it; the pools of all other cores are as
    they were, so that the pool of the target is untouched unless the
    target is the calling core itself; and the runner is linked at the
    head of the list of the target between taking and releasing the lock
    of that list. *)
Theorem cpu_run_on_one_uses_pool_of_caller (st : state)
    (from f d cpu p : Z) (rest : list Z) :
  well_formed st = true →
  0 ≤ cpu < cpu_count st →
  runners_mempool st !! from = Some (p :: rest) →
  ∃ st' rl,
    runlist st !! cpu = Some rl ∧
    cpu_run_on_one from f d cpu st = Some (0, st') ∧
    trace st'
    = trace st ++ [EvAlloc from p; EvLock cpu; EvPush cpu p f d; EvUnlock cpu] ∧
    pool st' from = rest ∧
    (∀ c, c ≠ from → pool st' c = pool st c) ∧
    pool st' cpu = (if decide (cpu = from) then rest else pool st cpu) ∧
    runlist st' !! cpu = Some (mk_cpu_runlist false p) ∧
    heap st' !! p = Some (mk_cpu_runner (next_runner rl) f d).
Proof.
  intros Hwf Hcpu Hpool.
  destruct (cpu_run_on_one_success st (queue st) NULL [] from f d cpu p rest
              (well_formed_inv st Hwf) Hcpu Hpool)
    as (st' & rl & Hrl & Hrun & Htrace & Hpools & Hlist & Hheap & _).
  exists st', rl. split; [exact Hrl|]. split; [exact Hrun|].
  split; [exact Htrace|]. unfold pool. rewrite Hpools, Hlist, Hheap.
  split; [by rewrite lookup_insert_eq|]. split.
  { intros c Hne. by rewrite lookup_insert_ne. }
  split.
  { destruct (decide (cpu = from)) as [->|Hne].
    - by rewrite lookup_insert_eq.
    - by rewrite lookup_insert_ne. }
  by rewrite !lookup_insert_eq.
Qed.

(** ** Accounting *)

Lemma count_pool_app (c : Z) (l1 l2 : list (Z * Z)) :
  count_pool c (l1 ++ l2) = (count_pool c l1 + count_pool c l2)%nat.
Proof. unfold count_pool. by rewrite filter_app, length_app. Qed.

Lemma calls_app (tr1 tr2 : list event) :
  calls (tr1 ++ tr2) = calls tr1 ++ calls tr2.
Proof. apply omap_app. Qed.

Lemma frees_app (tr1 tr2 : list event) :
  frees (tr1 ++ tr2) = frees tr1 ++ frees tr2.
Proof. apply omap_app. Qed.

Lemma allocs_app (tr1 tr2 : list event) :
  allocs (tr1 ++ tr2) = allocs tr1 ++ allocs tr2.
Proof. apply omap_app. Qed.

Lemma pushes_app (c : Z) (tr1 tr2 : list event) :
  pushes c (tr1 ++ tr2) = pushes c tr1 ++ pushes c tr2.
Proof. apply omap_app. Qed.

Lemma quiet_trace_cons (c : Z) (i : item) (l : list item) :
  quiet_trace c (i :: l)
  = [EvCall c (item_call i).1 (item_call i).2; EvFree c (item_ptr i)]
    ++ quiet_trace c l.
Proof. reflexivity. Qed.

Lemma locking_app (held : option Z) (tr1 tr2 : list event) :
  locking held (tr1 ++ tr2)
  = match locking held tr1 with
    | Some held' => locking held' tr2
    | None => None
    end.
Proof.
  revert held. induction tr1 as [|e tr1 IH]; intros held; [reflexivity|].
  destruct e; simpl; try case_bool_decide; auto.
Qed.

Lemma lock_discipline_app (tr1 tr2 : list event) :
  lock_discipline tr1 → lock_discipline tr2 → lock_discipline (tr1 ++ tr2).
Proof.
  unfold lock_discipline. intros H1 H2. by rewrite locking_app, H1.
Qed.

Lemma accounted_refl (st : state) : accounted st st [].
Proof.
  unfold accounted. rewrite app_nil_r. split_and!; try reflexivity.
Qed.

Lemma accounted_trans (st st1 st2 : state) (tr1 tr2 : list event) :
  accounted st st1 tr1 → accounted st1 st2 tr2 →
  accounted st st2 (tr1 ++ tr2).
Proof.
  intros (Ht1 & Hd1 & Hc1 & Hp1 & Hl1) (Ht2 & Hd2 & Hc2 & Hp2 & Hl2).
  split; [by rewrite Ht2, Ht1, app_assoc|]. split; [congruence|].
  split; [congruence|]. split; [|by apply lock_discipline_app].
  intros c. specialize (Hp1 c). specialize (Hp2 c).
  rewrite allocs_app, frees_app, !count_pool_app. lia.
Qed.

(** An operation that only adds to the trace events that are neither
    allocations nor frees. *)
Lemma accounted_set_trace (st : state) (tr : list event) :
  allocs tr = [] → frees tr = [] → lock_discipline tr →
  accounted st (set_trace (trace st ++ tr) st) tr.
Proof.
  intros Ha Hf Hl. split; [reflexivity|]. split; [reflexivity|].
  split; [reflexivity|]. split; [|exact Hl].
  intros c. by rewrite Ha, Hf.
Qed.

Lemma inv_set_trace (st : state) (t : list event) (Q : Z → list item)
    (runner : Z) (inflight : list item) :
  inv st Q runner inflight → inv (set_trace t st) Q runner inflight.
Proof. intros [? ? ? ? ? ? ?]. by split. Qed.

Lemma after_pushes_app (tr1 tr2 : list event) (Q : Z → list item) (c : Z) :
  after_pushes (tr1 ++ tr2) Q c = after_pushes tr2 (after_pushes tr1 Q) c.
Proof.
  unfold after_pushes, pushes. by rewrite omap_app, reverse_app, app_assoc.
Qed.

(** Any call of [cpu_run_on_one] made on a core that has its per-cpu
    area returns, and keeps the invariant. *)
Lemma cpu_run_on_one_inv (st : state) (Q : Z → list item) (runner : Z)
    (inflight : list item) (from f d cpu : Z) :
  inv st Q runner inflight →
  is_Some (runners_mempool st !! from) →
  0 ≤ cpu →
  ∃ ret st' tr,
    cpu_run_on_one from f d cpu st = Some (ret, st') ∧
    accounted st st' tr ∧
    inv st' (after_pushes tr Q) runner inflight ∧
    calls tr = [] ∧
    frees tr = [] ∧
    (ret = 0 →
     ∃ p, p ≠ NULL ∧
          tr = [EvAlloc from p; EvLock cpu; EvPush cpu p f d; EvUnlock cpu]) ∧
    (ret ≠ 0 → ∀ c, pushes c tr = []).
Proof.
  intros Hinv [pl Hpool] Hcpu.
  destruct (decide (cpu_count st ≤ cpu)) as [Hbad|Hok].
  { exists (- EINVAL), st, [].
    rewrite cpu_run_on_one_range_check
      by (pose proof (to_uint_le (cpu_count st)); destruct Hinv; lia).
    split; [reflexivity|]. split; [apply accounted_refl|].
    split; [exact Hinv|]. split; [reflexivity|]. split; [reflexivity|].
    split; [discriminate|reflexivity]. }
  destruct pl as [|p rest].
  { exists (- ENOMEM), (set_trace (trace st ++ [EvAlloc from NULL]) st),
      [EvAlloc from NULL].
    split.
    { unfold cpu_run_on_one, mempool_alloc. unfold_M. simpl.
      rewrite bool_decide_eq_false_2
        by (rewrite to_uint_small; destruct Hinv; lia).
      rewrite Hpool. simpl. reflexivity. }
    split; [by apply accounted_set_trace|].
    split; [by apply inv_set_trace|]. split; [reflexivity|].
    split; [reflexivity|]. split; [discriminate|reflexivity]. }
  destruct (cpu_run_on_one_success st Q runner inflight from f d cpu p rest
              Hinv ltac:(lia) Hpool)
    as (st' & rl & Hrl & Hrun & Htrace & Hpools & Hlist & Hheap & Hcount & Hinv').
  exists 0, st', [EvAlloc from p; EvLock cpu; EvPush cpu p f d; EvUnlock cpu].
  assert (Hp : p ≠ NULL).
  { intros ->. destruct Hinv as [_ _ _ _ _ _ (_ & Hnull & _)].
    apply (Hnull (Pooled from)). simpl. rewrite (pool_lookup _ _ _ Hpool).
    by left. }
  split; [exact Hrun|]. split.
  { split; [exact Htrace|]. split; [|split; [exact Hcount|split]].
    - rewrite Hpools. apply dom_insert_lookup_L. eauto.
    - intros c. unfold pool. rewrite Hpools. simpl.
      rewrite (bool_decide_eq_false_2 (p = NULL)) by exact Hp.
      unfold count_pool. simpl. rewrite filter_cons. simpl.
      destruct (decide (from = c)) as [->|Hne].
      + rewrite lookup_insert_eq, Hpool. simpl. lia.
      + rewrite lookup_insert_ne by done. simpl. lia.
    - unfold lock_discipline. simpl. by rewrite !bool_decide_eq_true_2. }
  split.
  { revert Hinv'. apply inv_ext. intros c. unfold after_pushes. simpl.
    case_bool_decide; case_decide; try done; congruence. }
  split; [reflexivity|]. split; [reflexivity|].
  split; [eauto|done].
Qed.


(** ** Sequences of submissions *)

(** A call of [cpu_run_on_one] that returns 0 found a runner in the pool
    of the calling core, for a target below [cpu_count]. *)
Lemma cpu_run_on_one_zero (st st' : state) (from f d cpu : Z) :
  cpu_run_on_one from f d cpu st = Some (0, st') →
  (∃ p rest, runners_mempool st !! from = Some (p :: rest)) ∧
  cpu < to_uint (cpu_count st).
Proof.
  unfold cpu_run_on_one, mempool_alloc. unfold_M. simpl.
  case_bool_decide as Hcpu; [discriminate|].
  destruct (runners_mempool st !! from) as [[|p rest]|]; simpl;
    try discriminate.
  intros _. split; [eauto|lia].
Qed.

Lemma submits_trace_cons (s : submission) (subs : list submission) (p : Z)
    (ps : list Z) :
  submits_trace (s :: subs) (p :: ps)
  = submit_trace s p ++ submits_trace subs ps.
Proof. reflexivity. Qed.

Lemma submit_each_success (subs : list submission) :
  ∀ (st st' : state) (Q : Z → list item) (runner : Z) (inflight : list item)
    (rets : list Z),
    inv st Q runner inflight →
    Forall (λ s, 0 ≤ sub_cpu s) subs →
    submit_each subs st = Some (rets, st') →
    Forall (λ ret, ret = 0) rets →
    ∃ ps,
      length ps = length subs ∧
      Forall (λ p, p ≠ NULL) ps ∧
      accounted st st' (submits_trace subs ps) ∧
      inv st' (after_pushes (submits_trace subs ps) Q) runner inflight.
Proof.
  induction subs as [|s subs IH];
    intros st st' Q runner inflight rets Hinv Hcpus Hrun Hrets.
  - injection Hrun as <- <-. exists []. split; [reflexivity|].
    split; [constructor|]. split; [apply accounted_refl|exact Hinv].
  - apply Forall_cons in Hcpus as [Hcpu Hcpus].
    cbn [submit_each] in Hrun. unfold_M.
    destruct (cpu_run_on_one (sub_from s) (sub_func s) (sub_data s)
                (sub_cpu s) st) as [[ret st1]|] eqn:Hrun1; [|discriminate].
    destruct (submit_each subs st1) as [[rets' st2]|] eqn:Hrun2;
      [|discriminate].
    injection Hrun as <- <-.
    apply Forall_cons in Hrets as [-> Hrets].
    destruct (cpu_run_on_one_zero _ _ _ _ _ _ Hrun1) as [(p0 & rest & Hpool) _].
    destruct (cpu_run_on_one_inv st Q runner inflight (sub_from s)
                (sub_func s) (sub_data s) (sub_cpu s) Hinv)
      as (ret & st1' & tr & Hrun1' & Hacc1 & Hinv1 & _ & _ & Hzero & _);
      [eauto|exact Hcpu|].
    rewrite Hrun1 in Hrun1'. injection Hrun1' as <- <-.
    destruct Hzero as (p & Hp & ->); [reflexivity|].
    destruct (IH st1 st2 _ runner inflight rets' Hinv1 Hcpus Hrun2 Hrets)
      as (ps & Hlen & Hps & Hacc2 & Hinv2).
    exists (p :: ps). split; [simpl; by rewrite Hlen|].
    split; [by constructor|]. rewrite submits_trace_cons.
    split; [exact (accounted_trans _ _ _ _ _ Hacc1 Hacc2)|].
    revert Hinv2. apply inv_ext. intros c. apply after_pushes_app.
Qed.

Lemma allocs_submits (subs : list submission) :
  ∀ ps, length ps = length subs → Forall (λ p, p ≠ NULL) ps →
        allocs (submits_trace subs ps) = zip (sub_from <$> subs) ps.
Proof.
  induction subs as [|s subs IH]; intros [|p ps] Hlen Hps; try done.
  apply Forall_cons in Hps as [Hp Hps].
  rewrite submits_trace_cons, allocs_app, IH by (simpl in Hlen; first [lia|done]).
  simpl. by rewrite bool_decide_eq_false_2.
Qed.

Lemma frees_submits (subs : list submission) :
  ∀ ps, frees (submits_trace subs ps) = [].
Proof.
  induction subs as [|s subs IH]; intros [|p ps]; try done.
  by rewrite submits_trace_cons, frees_app, IH.
Qed.


Lemma pushes_submits (T : Z) (subs : list submission) :
  Forall (λ s, sub_cpu s = T) subs →
  ∀ ps, pushes T (submits_trace subs ps) = zip_with submitted_item subs ps.
Proof.
  induction 1 as [|s subs Hs _ IH]; intros [|p ps]; try done.
  rewrite submits_trace_cons, pushes_app, IH. simpl.
  by rewrite bool_decide_eq_true_2.
Qed.


Lemma count_pool_zip (c : Z) (subs : list submission) :
  ∀ ps, length ps = length subs →
        count_pool c (zip (sub_from <$> subs) ps)
        = length (filter (λ s, sub_from s = c) subs).
Proof.
  unfold count_pool.
  induction subs as [|s subs IH]; intros [|p ps] Hlen; try done.
  simpl. rewrite !filter_cons. simpl.
  case_decide; simpl; rewrite IH by (simpl in Hlen; lia); done.
Qed.

Lemma count_pool_free_on (c T : Z) (l : list item) :
  count_pool c (free_on T <$> l) = if decide (c = T) then length l else 0%nat.
Proof.
  unfold count_pool. induction l as [|i l IH]; [by case_decide|].
  rewrite fmap_cons, filter_cons. simpl.
  repeat case_decide; simpl; try congruence; by rewrite IH.
Qed.

Lemma item_ptr_submitted (subs : list submission) :
  ∀ ps, length ps = length subs →
        item_ptr <$> zip_with submitted_item subs ps = ps.
Proof.
  induction subs as [|s subs IH]; intros [|p ps] Hlen; try done.
  simpl. f_equal. apply IH. simpl in Hlen. lia.
Qed.

(** ** Draining *)

Section DispatchProperties.

Variable body : Z → Z → list submission.

(** The submissions that take effect during a call. *)
Lemma run_submissions_inv (l : list submission) (st : state)
    (Q : Z → list item) (runner : Z) (inflight : list item) :
  inv st Q runner inflight →
  (∀ s, s ∈ l → is_Some (runners_mempool st !! sub_from s) ∧ 0 ≤ sub_cpu s) →
  ∃ st' tr,
    run_submissions l st = Some (tt, st') ∧
    accounted st st' tr ∧
    inv st' (after_pushes tr Q) runner inflight ∧
    calls tr = [] ∧
    frees tr = [] ∧
    (l = [] → tr = []).
Proof.
  revert st Q. induction l as [|s l IH]; intros st Q Hinv Hfrom.
  - exists st, []. split; [reflexivity|]. split; [apply accounted_refl|].
    by split.
  - destruct (Hfrom s) as [Hs Hcpu]; [by left|].
    destruct (cpu_run_on_one_inv st Q runner inflight (sub_from s)
                (sub_func s) (sub_data s) (sub_cpu s) Hinv Hs Hcpu)
      as (ret & st1 & tr1 & Hrun1 & Hacc1 & Hinv1 & Hcalls1 & Hfrees1 & _).
    destruct (IH st1 (after_pushes tr1 Q) Hinv1)
      as (st2 & tr2 & Hrun2 & Hacc2 & Hinv2 & Hcalls2 & Hfrees2 & _).
    { intros s' Hs'. destruct (Hfrom s') as [Hs'' Hcpu']; [by right|].
      split; [|exact Hcpu']. destruct Hacc1 as (_ & Hdom & _).
      apply elem_of_dom. rewrite Hdom. by apply elem_of_dom. }
    exists st2, (tr1 ++ tr2). split.
    { cbn [run_submissions]. unfold_M. rewrite Hrun1. exact Hrun2. }
    split; [by apply (accounted_trans st st1 st2)|]. split.
    { revert Hinv2. apply inv_ext. intros c. apply after_pushes_app. }
    rewrite calls_app, frees_app, Hcalls1, Hcalls2, Hfrees1, Hfrees2.
    by split_and!.
Qed.

(** Returning the runner at the head of the chain in progress to the
    pool of the draining core. *)
Lemma mempool_free_inv (st : state) (Q : Z → list item) (self q : Z)
    (i : item) (l : list item) :
  inv st Q q (i :: l) →
  is_Some (runners_mempool st !! self) →
  ∃ r st',
    heap st !! q = Some r ∧
    (func r, data r) = item_call i ∧
    q = item_ptr i ∧
    mempool_free self q st = Some (tt, st') ∧
    accounted st st' [EvFree self q] ∧
    inv st' Q (next r) l.
Proof.
  intros [Hcount Hcores Hdom Hlock Hqueue Hinfl Hsep] [pl Hpool].
  destruct Hinfl as (Hq & Hnull & r & Hr & Hcall & Hrest).
  exists r.
  exists (set_trace (trace st ++ [EvFree self q])
            (set_heap (delete q (heap st))
               (set_runners_mempool (<[self := q :: pl]> (runners_mempool st))
                  st))).
  split; [exact Hr|]. split; [exact Hcall|]. split; [exact Hq|]. split.
  { unfold mempool_free. unfold_M. by rewrite Hpool. }
  assert (Hhead : q ∈ layout st Q (i :: l) InFlight).
  { simpl. rewrite Hq. by left. }
  assert (Hnotq : ∀ c, q ∉ item_ptr <$> Q c).
  { intros c Hin. destruct Hsep as (_ & _ & Huniq).
    by specialize (Huniq InFlight (Queued c) q Hhead Hin). }
  assert (Hnotl : q ∉ item_ptr <$> l).
  { destruct Hsep as (Hdup & _). specialize (Hdup InFlight). simpl in Hdup.
    rewrite <- Hq in Hdup. by apply NoDup_cons in Hdup as []. }
  split.
  { split; [reflexivity|]. split; [|split; [reflexivity|split]].
    - simpl. apply dom_insert_lookup_L. eauto.
    - intros c. unfold pool, count_pool. simpl. rewrite filter_cons. simpl.
      destruct (decide (self = c)) as [->|Hne].
      + rewrite lookup_insert_eq, Hpool. simpl. lia.
      + rewrite lookup_insert_ne by done. simpl. lia.
    - reflexivity. }
  split; simpl.
  - exact Hcount.
  - exact Hcores.
  - rewrite (dom_insert_lookup_L (runners_mempool st)) by eauto. exact Hdom.
  - exact Hlock.
  - intros c rl Hrl. apply chain_delete; [apply Hnotq|by apply Hqueue].
  - by apply chain_delete.
  - apply (separated_move (layout st Q (i :: l)) _ InFlight (Pooled self)
             q (item_ptr <$> l) Hsep); simpl.
    + discriminate.
    + by rewrite Hq.
    + reflexivity.
    + unfold pool. simpl. by rewrite lookup_insert_eq, Hpool.
    + intros [|c|c] HA HB; simpl; try done.
      unfold pool. simpl. rewrite lookup_insert_ne; [reflexivity|congruence].
Qed.

(** The loop of [cpu_do_bookkeeping] on a chain that was taken off the
    list: with enough fuel it ends, having called the function of each
    runner of the chain once, in the order of the chain, and having
    returned each runner to the pool of the draining core. *)
Lemma run_chain_inv (l : list item) :
  ∀ (st : state) (Q : Z → list item) (self runner : Z) (fuel : nat),
    inv st Q runner l →
    l ≠ [] →
    (length l ≤ fuel)%nat →
    is_Some (runners_mempool st !! self) →
    (∀ i s, i ∈ l → s ∈ body (item_call i).1 (item_call i).2 →
            is_Some (runners_mempool st !! sub_from s) ∧ 0 ≤ sub_cpu s) →
    ∃ st' tr,
      run_chain body fuel self runner st = Some (tt, st') ∧
      accounted st st' tr ∧
      inv st' (after_pushes tr Q) NULL [] ∧
      calls tr = call_on self <$> l ∧
      frees tr = free_on self <$> l ∧
      ((∀ i, i ∈ l → body (item_call i).1 (item_call i).2 = []) →
       tr = quiet_trace self l).
Proof.
  induction l as [|i l IH]; intros st Q self runner fuel Hinv Hne Hfuel
    Hself Hbody; [done|].
  destruct fuel as [|fuel]; [simpl in Hfuel; lia|].
  pose proof (inv_inflight _ _ _ _ Hinv) as (Hq & Hnull & r & Hr & Hcall & _).
  (* the call *)
  set (st_a := set_trace (trace st ++ [EvCall self (func r) (data r)]) st).
  destruct (run_submissions_inv (body (func r) (data r)) st_a Q runner
              (i :: l) (inv_set_trace _ _ _ _ _ Hinv))
    as (st_b & tr_b & Hrun_b & Hacc_b & Hinv_b & Hcalls_b & Hfrees_b & Hquiet_b).
  { intros s Hs. apply (Hbody i s); [by left|]. by rewrite <- Hcall. }
  assert (Hacc_a : accounted st st_a [EvCall self (func r) (data r)])
    by (by apply accounted_set_trace).
  pose proof (accounted_trans _ _ _ _ _ Hacc_a Hacc_b) as Hacc_ab.
  assert (Hself_b : is_Some (runners_mempool st_b !! self)).
  { destruct Hacc_ab as (_ & Hdom & _).
    apply elem_of_dom. rewrite Hdom. by apply elem_of_dom. }
  (* the free *)
  destruct (mempool_free_inv st_b (after_pushes tr_b Q) self runner i l
              Hinv_b Hself_b)
    as (r' & st_c & Hr' & Hcall' & _ & Hfree & Hacc_c & Hinv_c).
  pose proof (accounted_trans _ _ _ _ _ Hacc_ab Hacc_c) as Hacc_abc.
  assert (Hstep :
            run_chain body (S fuel) self runner st
            = (if bool_decide (next r' = NULL) then mret tt
               else run_chain body fuel self (next r')) st_c).
  { cbn [run_chain]. unfold call, load_runner. unfold_M.
    rewrite (bool_decide_eq_false_2 (runner = NULL)) by exact Hnull.
    rewrite Hr. simpl. fold st_a. rewrite Hrun_b.
    rewrite Hr'. by rewrite Hfree. }
  rewrite Hstep. clear Hstep.
  assert (Hcalls_abc :
            calls (([EvCall self (func r) (data r)] ++ tr_b) ++ [EvFree self runner])
            = [call_on self i]).
  { rewrite !calls_app, Hcalls_b. simpl.
    unfold call_on. by rewrite <- Hcall. }
  assert (Hfrees_abc :
            frees (([EvCall self (func r) (data r)] ++ tr_b) ++ [EvFree self runner])
            = [free_on self i]).
  { rewrite !frees_app, Hfrees_b. simpl.
    unfold free_on. by rewrite Hq. }
  assert (Hpush_abc : ∀ c,
            after_pushes
              (([EvCall self (func r) (data r)] ++ tr_b) ++ [EvFree self runner])
              Q c
            = after_pushes tr_b Q c).
  { intros c. unfold after_pushes, pushes. rewrite !omap_app. simpl.
    by rewrite app_nil_r. }
  case_bool_decide as Hnext.
  - (* the chain ends here *)
    rewrite Hnext in Hinv_c.
    assert (l = []) as -> by (exact (chain_null _ _ (inv_inflight _ _ _ _ Hinv_c))).
    eexists st_c, _. split; [reflexivity|]. split; [exact Hacc_abc|].
    split; [|split; [done|split; [done|]]].
    { revert Hinv_c. apply inv_ext. exact Hpush_abc. }
    intros Hquiet. rewrite Hquiet_b.
    + rewrite quiet_trace_cons, <- Hcall, <- Hq. reflexivity.
    + specialize (Hquiet i ltac:(by left)). by rewrite <- Hcall in Hquiet.
  - (* the chain goes on *)
    destruct (IH st_c (after_pushes tr_b Q) self (next r') fuel Hinv_c)
      as (st' & tr & Hrun & Hacc & Hinv' & Hcalls & Hfrees & Hquiet').
    { exact (chain_nonnull _ _ _ (inv_inflight _ _ _ _ Hinv_c) Hnext). }
    { simpl in Hfuel. lia. }
    { destruct Hacc_c as (_ & Hdom & _).
      apply elem_of_dom. rewrite Hdom. by apply elem_of_dom. }
    { intros i' s Hi' Hs. destruct (Hbody i' s) as [Hfrom Hcpu]; [by right|done|].
      split; [|exact Hcpu]. destruct Hacc_abc as (_ & Hdom & _).
      apply elem_of_dom. rewrite Hdom. by apply elem_of_dom. }
    eexists st', _. split; [exact Hrun|].
    split; [exact (accounted_trans _ _ _ _ _ Hacc_abc Hacc)|]. split.
    { revert Hinv'. apply inv_ext. intros c.
      rewrite after_pushes_app. unfold after_pushes at 1 3.
      by rewrite Hpush_abc. }
    split; [by rewrite calls_app, Hcalls, Hcalls_abc|].
    split; [by rewrite frees_app, Hfrees, Hfrees_abc|].
    intros Hquiet. rewrite Hquiet_b, Hquiet'.
    + rewrite quiet_trace_cons, <- Hcall, <- Hq. reflexivity.
    + intros i' Hi'. apply Hquiet. by right.
    + specialize (Hquiet i ltac:(by left)). by rewrite <- Hcall in Hquiet.
Qed.

(** A call of [cpu_do_bookkeeping] on a core whose list is not empty:
    the list is emptied under the lock, then the chain is run. *)
Lemma cpu_do_bookkeeping_inv (st : state) (Q : Z → list item) (self : Z)
    (rl : cpu_runlist) (fuel : nat) :
  inv st Q NULL [] →
  runlist st !! self = Some rl →
  next_runner rl ≠ NULL →
  (length (Q self) ≤ fuel)%nat →
  (∀ i s, i ∈ Q self → s ∈ body (item_call i).1 (item_call i).2 →
          is_Some (runners_mempool st !! sub_from s) ∧ 0 ≤ sub_cpu s) →
  ∃ st' tr,
    cpu_do_bookkeeping body fuel self st = Some (tt, st') ∧
    accounted st st'
      ([EvLock self; EvTake self (next_runner rl); EvUnlock self] ++ tr) ∧
    inv st' (after_pushes tr (λ c, if decide (c = self) then [] else Q c))
      NULL [] ∧
    calls tr = call_on self <$> Q self ∧
    frees tr = free_on self <$> Q self ∧
    ((∀ i, i ∈ Q self → body (item_call i).1 (item_call i).2 = []) →
     tr = quiet_trace self (Q self)).
Proof.
  intros Hinv Hrl Hhead Hfuel Hbody.
  pose proof Hinv as [Hcount Hcores Hdom Hlock Hqueue Hinfl Hsep].
  pose proof (Hlock self rl Hrl) as Hfree.
  set (taken := [EvLock self; EvTake self (next_runner rl); EvUnlock self]).
  set (st_t := set_trace (trace st ++ taken)
                 (set_runlist (<[self := mk_cpu_runlist false NULL]> (runlist st))
                    st)).
  assert (Hrun_t : cpu_do_bookkeeping body fuel self st
                   = run_chain body fuel self (next_runner rl) st_t).
  { unfold cpu_do_bookkeeping, spin_lock, set_next_runner,
      spin_unlock. unfold_M.
    rewrite Hrl. rewrite (bool_decide_eq_false_2 _ Hhead).
    repeat (first [rewrite Hrl | rewrite Hfree | rewrite lookup_insert_eq];
            simpl).
    rewrite !insert_insert_eq, <- !app_assoc. reflexivity. }
  rewrite Hrun_t. clear Hrun_t.
  assert (Hacc_t : accounted st st_t taken).
  { split; [reflexivity|]. split; [reflexivity|]. split; [reflexivity|].
    split; [intros c; reflexivity|].
    unfold lock_discipline, taken. simpl. by rewrite !bool_decide_eq_true_2. }
  assert (Hinv_t : inv st_t (λ c, if decide (c = self) then [] else Q c)
                     (next_runner rl) (Q self)).
  { split; simpl.
    - exact Hcount.
    - intros c Hc. apply lookup_insert_is_Some'. right. by apply Hcores.
    - rewrite (dom_insert_lookup_L (runlist st)) by eauto. exact Hdom.
    - intros c rl' Hrl'. destruct (decide (c = self)) as [->|Hne].
      + rewrite lookup_insert_eq in Hrl'. by injection Hrl' as <-.
      + rewrite lookup_insert_ne in Hrl' by done. by apply (Hlock c).
    - intros c rl' Hrl'. destruct (decide (c = self)) as [->|Hne].
      + rewrite lookup_insert_eq in Hrl'. by injection Hrl' as <-.
      + rewrite lookup_insert_ne in Hrl' by done. by apply Hqueue.
    - by apply Hqueue.
    - apply (separated_take (layout st Q []) _ (Queued self) Hsep); simpl.
      + discriminate.
      + reflexivity.
      + reflexivity.
      + by rewrite decide_True.
      + intros [|c|c] HA HB; simpl; try done.
        rewrite decide_False; [reflexivity|congruence]. }
  destruct (run_chain_inv (Q self) st_t _ self (next_runner rl) fuel Hinv_t)
    as (st' & tr & Hrun & Hacc & Hinv' & Hcalls & Hfrees & Hquiet).
  { exact (chain_nonnull _ _ _ (Hqueue self rl Hrl) Hhead). }
  { exact Hfuel. }
  { apply elem_of_dom. simpl. rewrite <- Hdom. apply elem_of_dom. eauto. }
  { exact Hbody. }
  exists st', tr. split; [exact Hrun|].
  split; [exact (accounted_trans _ _ _ _ _ Hacc_t Hacc)|]. by split.
Qed.

(** Submissions to a core whose list is empty, then one drain on that
    core. *)
Lemma drain_after_submissions (st0 st1 : state) (T : Z) (rl : cpu_runlist)
    (subs : list submission) (rets : list Z) (fuel : nat) :
  well_formed st0 = true →
  0 ≤ T < cpu_count st0 →
  runlist st0 !! T = Some rl →
  next_runner rl = NULL →
  subs ≠ [] →
  Forall (λ s, sub_cpu s = T) subs →
  (∀ s s', s ∈ subs → s' ∈ body (sub_func s) (sub_data s) →
           is_Some (runners_mempool st0 !! sub_from s') ∧ 0 ≤ sub_cpu s') →
  submit_each subs st0 = Some (rets, st1) →
  Forall (λ ret, ret = 0) rets →
  (length subs ≤ fuel)%nat →
  ∃ ps st2 tr rl1,
    length ps = length subs ∧
    Forall (λ p, p ≠ NULL) ps ∧
    NoDup ps ∧
    accounted st0 st1 (submits_trace subs ps) ∧
    runlist st1 !! T = Some rl1 ∧
    cpu_do_bookkeeping body fuel T st1 = Some (tt, st2) ∧
    accounted st1 st2
      ([EvLock T; EvTake T (next_runner rl1); EvUnlock T] ++ tr) ∧
    calls tr = call_on T <$> reverse (zip_with submitted_item subs ps) ∧
    frees tr = free_on T <$> reverse (zip_with submitted_item subs ps) ∧
    ((∀ s, s ∈ subs → body (sub_func s) (sub_data s) = []) →
     tr = quiet_trace T (reverse (zip_with submitted_item subs ps))).
Proof.
  intros Hwf HT Hrl Hhead Hsubs Htarget Hbody Hrun Hrets Hfuel.
  pose proof (well_formed_inv st0 Hwf) as Hinv0.
  assert (Hempty : queue st0 T = []).
  { apply (chain_null (heap st0)). rewrite <- Hhead.
    exact (inv_queue _ _ _ _ Hinv0 T rl Hrl). }
  destruct (submit_each_success subs st0 st1 (queue st0) NULL [] rets Hinv0)
    as (ps & Hlen & Hps & Hacc1 & Hinv1); [|exact Hrun|exact Hrets|].
  { eapply Forall_impl; [exact Htarget|]. simpl. intros s ->. lia. }
  set (items := zip_with submitted_item subs ps) in *.
  assert (HQ1 : after_pushes (submits_trace subs ps) (queue st0) T
                = reverse items).
  { unfold after_pushes. rewrite (pushes_submits T subs Htarget), Hempty.
    apply app_nil_r. }
  assert (Hitems : length items = length subs).
  { unfold items. rewrite length_zip_with. lia. }
  destruct Hacc1 as (Htr1 & Hdom1 & Hcount1 & Hpools1 & Hlocks1).
  destruct (inv_cores _ _ _ _ Hinv1 T) as [rl1 Hrl1]; [lia|].
  pose proof (inv_queue _ _ _ _ Hinv1 T rl1 Hrl1) as Hchain1.
  rewrite HQ1 in Hchain1.
  assert (Hne : reverse items ≠ []).
  { intros Hnil. apply (f_equal length) in Hnil.
    rewrite length_reverse, Hitems in Hnil. destruct subs; simpl in *; done. }
  assert (Hhead1 : next_runner rl1 ≠ NULL).
  { destruct (reverse items) as [|i l]; [done|].
    destruct Hchain1 as (-> & Hnull & _). exact Hnull. }
  assert (Hin : ∀ i, i ∈ reverse items →
                     ∃ s, s ∈ subs ∧ item_call i = (sub_func s, sub_data s)).
  { intros i Hi. rewrite elem_of_reverse in Hi. unfold items in Hi.
    apply elem_of_zip_with in Hi as (s & p & -> & Hs & _). eauto. }
  destruct (cpu_do_bookkeeping_inv st1 _ T rl1 fuel Hinv1 Hrl1 Hhead1)
    as (st2 & tr & Hrun2 & Hacc2 & _ & Hcalls & Hfrees & Hquiet).
  { rewrite HQ1, length_reverse. lia. }
  { rewrite HQ1. intros i s' Hi Hs'. destruct (Hin i Hi) as (s & Hs & Hcall).
    rewrite Hcall in Hs'. simpl in Hs'.
    destruct (Hbody s s' Hs Hs') as [Hfrom Hcpu]. split; [|exact Hcpu].
    apply elem_of_dom. rewrite Hdom1. by apply elem_of_dom. }
  rewrite HQ1 in Hcalls, Hfrees, Hquiet.
  exists ps, st2, tr, rl1.
  split; [exact Hlen|]. split; [exact Hps|]. split.
  { destruct (inv_sep _ _ _ _ Hinv1) as (Hdup & _).
    specialize (Hdup (Queued T)). simpl in Hdup. rewrite HQ1 in Hdup.
    rewrite fmap_reverse in Hdup. unfold items in Hdup.
    rewrite item_ptr_submitted in Hdup by exact Hlen.
    by rewrite reverse_Permutation in Hdup. }
  split; [done|]. split; [exact Hrl1|]. split; [exact Hrun2|].
  split; [exact Hacc2|]. split; [exact Hcalls|]. split; [exact Hfrees|].
  intros Hq. apply Hquiet. intros i Hi. destruct (Hin i Hi) as (s & Hs & ->).
  by apply Hq.
Qed.

(** C4. Three submissions [A], [B], [C] to a core whose list is empty,
    followed by one call of [cpu_do_bookkeeping] on that core: the
    calls made are those of [C], [B] and [A], in this order, once
    each. *)
Theorem cpu_do_bookkeeping_lifo (st0 st3 : state) (T : Z) (rl : cpu_runlist)
    (cA fA dA cB fB dB cC fC dC : Z) :
  well_formed st0 = true →
  0 ≤ T < cpu_count st0 →
  runlist st0 !! T = Some rl →
  next_runner rl = NULL →
  bodies_on_cores body st0 →
  submit_each [mk_submission cA fA dA T; mk_submission cB fB dB T;
               mk_submission cC fC dC T] st0
  = Some ([0; 0; 0], st3) →
  ∃ st4 tr,
    cpu_do_bookkeeping body 3 T st3 = Some (tt, st4) ∧
    trace st4 = trace st3 ++ tr ∧
    calls tr = [(T, fC, dC); (T, fB, dB); (T, fA, dA)].
Proof.
  intros Hwf HT Hrl Hhead Hbody Hrun.
  destruct (drain_after_submissions st0 st3 T rl
              [mk_submission cA fA dA T; mk_submission cB fB dB T;
               mk_submission cC fC dC T] [0; 0; 0] 3%nat Hwf HT Hrl Hhead)
    as (ps & st4 & tr & rl3 & Hlen & _ & _ & _ & _ & Hrun4 & Hacc & Hcalls & _).
  { done. }
  { by repeat constructor. }
  { intros s s' _ Hs'. exact (Hbody _ _ s' Hs'). }
  { exact Hrun. }
  { by repeat constructor. }
  { simpl. lia. }
  destruct ps as [|pA [|pB [|pC [|? ?]]]]; try done.
  eexists st4, _. split; [exact Hrun4|].
  destruct Hacc as (Htr & _). split; [exact Htr|].
  rewrite calls_app, Hcalls. reflexivity.
Qed.

Lemma allocs_quiet (c : Z) (l : list item) : allocs (quiet_trace c l) = [].
Proof.
  induction l as [|i l IH]; [done|]. by rewrite quiet_trace_cons, allocs_app, IH.
Qed.

(** C2, as amended.  Work submitted to a core whose list is empty and
    then run by one drain on that core, the functions submitting
    nothing themselves: every runner allocated for it is a distinct
    object, allocated from the pool of the core that made the call and
    freed once, to the pool of the core that drains.  A pool thus ends
    with as many free objects as before, less those allocated from it,
    plus, for the pool of the draining core, all those freed: the
    count of a pool is restored when the calls it served were made on
    the draining core itself, and the total over all pools always is. *)
Theorem runners_return_to_draining_pool (st0 st1 : state) (T : Z)
    (rl : cpu_runlist) (subs : list submission) (rets : list Z) :
  well_formed st0 = true →
  0 ≤ T < cpu_count st0 →
  runlist st0 !! T = Some rl →
  next_runner rl = NULL →
  Forall (λ s, sub_cpu s = T) subs →
  (∀ s, s ∈ subs → body (sub_func s) (sub_data s) = []) →
  submit_each subs st0 = Some (rets, st1) →
  Forall (λ ret, ret = 0) rets →
  ∃ st2 ps,
    cpu_do_bookkeeping body (length subs) T st1 = Some (tt, st2) ∧
    length ps = length subs ∧
    NoDup ps ∧
    allocs (drop (length (trace st0)) (trace st2))
    = zip (sub_from <$> subs) ps ∧
    frees (drop (length (trace st0)) (trace st2))
    = (λ p, (T, p)) <$> reverse ps ∧
    ∀ c, (length (pool st2 c) + length (filter (λ s, sub_from s = c) subs)
          = length (pool st0 c)
            + (if decide (c = T) then length subs else 0))%nat.
Proof.
  intros Hwf HT Hrl Hhead Htarget Hquiet Hrun Hrets.
  destruct subs as [|s0 subs'].
  { injection Hrun as <- <-. exists st0, [].
    rewrite (cpu_do_bookkeeping_skip body _ T st0 rl Hrl Hhead).
    rewrite drop_all. split_and!; try done; [constructor|].
    intros c. simpl. by case_decide. }
  set (subs := s0 :: subs') in *.
  destruct (drain_after_submissions st0 st1 T rl subs rets (length subs)
              Hwf HT Hrl Hhead)
    as (ps & st2 & tr & rl1 & Hlen & Hps & Hdup & Hacc1 & _ & Hrun2 & Hacc2
        & _ & Hfrees & Htr); try done.
  { intros s s' Hs Hs'. rewrite (Hquiet s Hs) in Hs'. by apply elem_of_nil in Hs'. }
  specialize (Htr Hquiet).
  pose proof (accounted_trans _ _ _ _ _ Hacc1 Hacc2)
    as (Htrace & _ & _ & Hpools & _).
  assert (Hallocs :
            allocs (submits_trace subs ps
                    ++ [EvLock T; EvTake T (next_runner rl1); EvUnlock T] ++ tr)
            = zip (sub_from <$> subs) ps).
  { rewrite !allocs_app, Htr, allocs_quiet, (allocs_submits subs ps Hlen Hps).
    simpl. by rewrite app_nil_r. }
  assert (Hfrees' :
            frees (submits_trace subs ps
                   ++ [EvLock T; EvTake T (next_runner rl1); EvUnlock T] ++ tr)
            = free_on T <$> reverse (zip_with submitted_item subs ps)).
  { rewrite !frees_app, frees_submits, Hfrees. reflexivity. }
  exists st2, ps. split; [exact Hrun2|]. split; [exact Hlen|].
  split; [exact Hdup|].
  rewrite Htrace, drop_app_length, Hallocs, Hfrees'.
  split; [reflexivity|]. split.
  { rewrite <- (item_ptr_submitted subs ps Hlen) at 2.
    rewrite <- fmap_reverse, <- list_fmap_compose. reflexivity. }
  intros c. specialize (Hpools c).
  rewrite Hallocs, Hfrees', (count_pool_zip c subs ps Hlen),
    count_pool_free_on, length_reverse, length_zip_with in Hpools.
  rewrite Hpools. case_decide; lia.
Qed.

(** C5. A drain empties the list under its lock and releases the lock
    before it calls anything: its trace starts with taking the lock,
    emptying the list and releasing the lock, and no call in it is made
    while a lock is held.  It calls the functions of the chain it took
    and no other; the work linked onto the list after that is all on the
    list when the drain returns, and is what the next drain on the core
    runs. *)
Theorem cpu_do_bookkeeping_defers_new_work (st : state) (T : Z)
    (rl : cpu_runlist) (fuel : nat) :
  well_formed st = true →
  runlist st !! T = Some rl →
  next_runner rl ≠ NULL →
  bodies_on_cores body st →
  (length (queue st T) ≤ fuel)%nat →
  ∃ st1 tr1 rl1,
    cpu_do_bookkeeping body fuel T st = Some (tt, st1) ∧
    trace st1
    = trace st ++ [EvLock T; EvTake T (next_runner rl); EvUnlock T] ++ tr1 ∧
    lock_discipline ([EvLock T; EvTake T (next_runner rl); EvUnlock T] ++ tr1) ∧
    calls tr1 = call_on T <$> queue st T ∧
    runlist st1 !! T = Some rl1 ∧
    chain (heap st1) (next_runner rl1) (reverse (pushes T tr1)) ∧
    ∀ fuel2, (length (pushes T tr1) ≤ fuel2)%nat →
      ∃ st2 tr2,
        cpu_do_bookkeeping body fuel2 T st1 = Some (tt, st2) ∧
        trace st2 = trace st1 ++ tr2 ∧
        calls tr2 = call_on T <$> reverse (pushes T tr1).
Proof.
  intros Hwf Hrl Hhead Hbody Hfuel.
  pose proof (well_formed_inv st Hwf) as Hinv.
  destruct (cpu_do_bookkeeping_inv st (queue st) T rl fuel Hinv Hrl Hhead Hfuel)
    as (st1 & tr1 & Hrun1 & Hacc1 & Hinv1 & Hcalls1 & _).
  { intros i s _ Hs. exact (Hbody _ _ s Hs). }
  destruct Hacc1 as (Htrace1 & Hdom1 & _ & _ & Hlocks1).
  assert (HQ1 : after_pushes tr1 (λ c, if decide (c = T) then [] else queue st c) T
                = reverse (pushes T tr1)).
  { unfold after_pushes. rewrite decide_True by done. apply app_nil_r. }
  assert (Hin1 : is_Some (runlist st1 !! T)).
  { apply elem_of_dom. rewrite (inv_dom _ _ _ _ Hinv1), Hdom1.
    rewrite <- (inv_dom _ _ _ _ Hinv). apply elem_of_dom. eauto. }
  destruct Hin1 as [rl1 Hrl1].
  pose proof (inv_queue _ _ _ _ Hinv1 T rl1 Hrl1) as Hchain1.
  rewrite HQ1 in Hchain1.
  exists st1, tr1, rl1. split; [exact Hrun1|]. split; [exact Htrace1|].
  split; [exact Hlocks1|]. split; [exact Hcalls1|]. split; [exact Hrl1|]. split; [exact Hchain1|].
  intros fuel2 Hfuel2.
  destruct (decide (next_runner rl1 = NULL)) as [Hnull|Hnonnull].
  - exists st1, [].
    rewrite (cpu_do_bookkeeping_skip body fuel2 T st1 rl1 Hrl1 Hnull).
    rewrite Hnull in Hchain1. apply chain_null in Hchain1. rewrite Hchain1.
    split; [reflexivity|]. split; [by rewrite app_nil_r|reflexivity].
  - destruct (cpu_do_bookkeeping_inv st1 _ T rl1 fuel2 Hinv1 Hrl1 Hnonnull)
      as (st2 & tr2 & Hrun2 & (Htrace2 & _) & _ & Hcalls2 & _).
    { by rewrite HQ1, length_reverse. }
    { intros i s _ Hs. destruct (Hbody _ _ s Hs) as [Hfrom Hcpu].
      split; [|exact Hcpu]. apply elem_of_dom. rewrite Hdom1.
      by apply elem_of_dom. }
    rewrite HQ1 in Hcalls2.
    eexists st2, _. split; [exact Hrun2|]. split; [exact Htrace2|].
    rewrite calls_app. exact Hcalls2.
Qed.

End DispatchProperties.

(** * The properties on the example machines *)

Lemma quiet_body_on_cores (st : state) : bodies_on_cores quiet_body st.
Proof. intros f d s Hs. by apply elem_of_nil in Hs. Qed.

Lemma resubmitting_body_on_cores (st : state) :
  is_Some (runners_mempool st !! 1) → bodies_on_cores resubmitting_body st.
Proof.
  intros Hup f d s Hs. unfold resubmitting_body in Hs.
  case_bool_decide; [|by apply elem_of_nil in Hs].
  apply list_elem_of_singleton in Hs as ->. simpl. split; [exact Hup|lia].
Qed.

(** On [two_cores], a call made on core 0 for core 1 takes runner 101
    from the pool of core 0 and leaves the pool of core 1 as it was. *)
Lemma cpu_run_on_one_not_from_target_pool :
  (λ r, (r.1, allocs (trace r.2), pool r.2 0, pool r.2 1))
    <$> cpu_run_on_one 0 11 1 1 two_cores
  = Some (0, [(0, 101)], [102; 103], [201; 202]).
Proof. vm_compute. reflexivity. Qed.

Lemma cpu_run_on_one_uses_pool_of_caller_witness :
  ∃ st' rl,
    runlist two_cores !! 1 = Some rl ∧
    cpu_run_on_one 0 11 1 1 two_cores = Some (0, st') ∧
    trace st'
    = trace two_cores ++ [EvAlloc 0 101; EvLock 1; EvPush 1 101 11 1; EvUnlock 1] ∧
    pool st' 0 = [102; 103] ∧
    (∀ c, c ≠ 0 → pool st' c = pool two_cores c) ∧
    pool st' 1 = (if decide (1 = 0) then [102; 103] else pool two_cores 1) ∧
    runlist st' !! 1 = Some (mk_cpu_runlist false 101) ∧
    heap st' !! 101 = Some (mk_cpu_runner (next_runner rl) 11 1).
Proof.
  apply (cpu_run_on_one_uses_pool_of_caller two_cores 0 11 1 1 101 [102; 103]).
  - vm_compute. reflexivity.
  - simpl. lia.
  - vm_compute. reflexivity.
Defined.

(** On [two_cores], a call made on core 1 for core 1 itself takes runner
    201 from the pool of core 1, the caller's, and leaves the pool of
    core 0 as it was. *)
Example cpu_run_on_one_to_self_uses_own_pool :
  (λ r, (r.1, allocs (trace r.2), pool r.2 0, pool r.2 1))
    <$> cpu_run_on_one 1 12 2 1 two_cores
  = Some (0, [(1, 201)], [101; 102; 103], [202]).
Proof. vm_compute. reflexivity. Qed.

(** On [two_cores], the runner that a call on core 0 allocates for core 1
    comes from the pool of core 0 and is freed to the pool of core 1:
    after the drain the pool of core 0 has two free runners where it had
    three, and the pool of core 1 three where it had two. *)
Lemma runner_freed_to_other_pool :
  (λ r, (allocs (trace r.2), frees (trace r.2),
         length (pool r.2 0), length (pool r.2 1)))
    <$> (cpu_run_on_one 0 11 1 1;; cpu_do_bookkeeping quiet_body 1 1) two_cores
  = Some ([(0, 101)], [(1, 101)], 2%nat, 3%nat)
  ∧ (length (pool two_cores 0), length (pool two_cores 1)) = (3%nat, 2%nat).
Proof. split; vm_compute; reflexivity. Qed.

Lemma runners_return_to_draining_pool_witness :
  ∃ st2 ps,
    cpu_do_bookkeeping quiet_body 2 1 (state_after [work_A; work_B] two_cores)
    = Some (tt, st2) ∧
    length ps = 2%nat ∧
    NoDup ps ∧
    allocs (drop (length (trace two_cores)) (trace st2))
    = zip (sub_from <$> [work_A; work_B]) ps ∧
    frees (drop (length (trace two_cores)) (trace st2))
    = (λ p, (1, p)) <$> reverse ps ∧
    ∀ c, (length (pool st2 c)
          + length (filter (λ s, sub_from s = c) [work_A; work_B])
          = length (pool two_cores c)
            + (if decide (c = 1%Z) then 2 else 0))%nat.
Proof.
  apply (runners_return_to_draining_pool quiet_body two_cores
           (state_after [work_A; work_B] two_cores) 1
           (mk_cpu_runlist false NULL) [work_A; work_B] [0; 0]).
  - vm_compute. reflexivity.
  - simpl. lia.
  - vm_compute. reflexivity.
  - reflexivity.
  - repeat constructor.
  - reflexivity.
  - vm_compute. reflexivity.
  - repeat constructor.
Defined.

Lemma cpu_do_bookkeeping_lifo_witness :
  ∃ st4 tr,
    cpu_do_bookkeeping resubmitting_body 3 1
      (state_after [work_A; work_B; work_C] two_cores)
    = Some (tt, st4) ∧
    trace st4 = trace (state_after [work_A; work_B; work_C] two_cores) ++ tr ∧
    calls tr = [(1, 13, 3); (1, 12, 2); (1, 11, 1)].
Proof.
  apply (cpu_do_bookkeeping_lifo resubmitting_body two_cores
           (state_after [work_A; work_B; work_C] two_cores) 1
           (mk_cpu_runlist false NULL) 0 11 1 1 12 2 0 13 3).
  - vm_compute. reflexivity.
  - simpl. lia.
  - vm_compute. reflexivity.
  - reflexivity.
  - apply resubmitting_body_on_cores. vm_compute. eauto.
  - vm_compute. reflexivity.
Defined.

Lemma cpu_do_bookkeeping_defers_new_work_witness :
  ∃ st1 tr1 rl1,
    cpu_do_bookkeeping resubmitting_body 1 1 (state_after [work_C] two_cores)
    = Some (tt, st1) ∧
    trace st1
    = trace (state_after [work_C] two_cores)
      ++ [EvLock 1; EvTake 1 101; EvUnlock 1] ++ tr1 ∧
    lock_discipline ([EvLock 1; EvTake 1 101; EvUnlock 1] ++ tr1) ∧
    calls tr1 = call_on 1 <$> queue (state_after [work_C] two_cores) 1 ∧
    runlist st1 !! 1 = Some rl1 ∧
    chain (heap st1) (next_runner rl1) (reverse (pushes 1 tr1)) ∧
    ∀ fuel2, (length (pushes 1 tr1) ≤ fuel2)%nat →
      ∃ st2 tr2,
        cpu_do_bookkeeping resubmitting_body fuel2 1 st1 = Some (tt, st2) ∧
        trace st2 = trace st1 ++ tr2 ∧
        calls tr2 = call_on 1 <$> reverse (pushes 1 tr1).
Proof.
  apply (cpu_do_bookkeeping_defers_new_work resubmitting_body
           (state_after [work_C] two_cores) 1 (mk_cpu_runlist false 101) 1).
  - vm_compute. reflexivity.
  - vm_compute. reflexivity.
  - discriminate.
  - apply resubmitting_body_on_cores. vm_compute. eauto.
  - vm_compute. lia.
Defined.

(** On the machine of the witness above: function 13, submitted to core
    1, submits function 21 to core 1 when it runs.  The first drain calls
    function 13 only; function 21 is called by the second drain. *)
Example deferred_work_runs_in_next_drain :
  (λ r, calls (trace r.2))
    <$> cpu_do_bookkeeping resubmitting_body 1 1
          (state_after [work_C] two_cores)
  = Some [(1, 13, 3)]
  ∧ (λ r, calls (trace r.2))
      <$> (cpu_do_bookkeeping resubmitting_body 1 1;;
           cpu_do_bookkeeping resubmitting_body 1 1)
            (state_after [work_C] two_cores)
    = Some [(1, 13, 3); (1, 21, 3)].
Proof. split; vm_compute; reflexivity. Qed.

Lemma cpu_run_on_one_invalid_target_witness :
  cpu_run_on_one 0 11 1 2 two_cores = Some (- EINVAL, two_cores).
Proof.
  apply (cpu_run_on_one_invalid_target 0 11 1 2 two_cores); simpl; lia.
Defined.

Lemma cpu_do_bookkeeping_empty_witness :
  ∃ st',
    cpu_do_bookkeeping resubmitting_body 0 1 two_cores = Some (tt, st') ∧
    st' = two_cores ∧
    trace st' = trace two_cores ∧
    runlist st' = runlist two_cores ∧
    runners_mempool st' = runners_mempool two_cores ∧
    heap st' = heap two_cores.
Proof.
  apply (cpu_do_bookkeeping_empty resubmitting_body 0 1 two_cores
           (mk_cpu_runlist false NULL)).
  - vm_compute. reflexivity.
  - reflexivity.
Defined.

Lemma cpu_init_count_out_of_range_witness :
  ∃ st',
    cpu_init 2 (-1) 0 cpuinfo_out_of_order 0 fresh_table = Some (- EINVAL, st') ∧
    st' = set_cpu_count (to_int (-1)) fresh_table ∧
    apicid_map st' = apicid_map fresh_table ∧
    runners_datastore st' = runners_datastore fresh_table ∧
    runners_mempool st' = runners_mempool fresh_table ∧
    trace st' = trace fresh_table.
Proof.
  apply (cpu_init_count_out_of_range 2 (-1) 0 cpuinfo_out_of_order 0 fresh_table).
  vm_compute. intros [H _]. discriminate H.
Defined.



(** The bring-up of the witness above stops at privileged-mode entry:
    four steps are performed and the error of the entry is returned;
    with answers that are all successes the six steps are performed and
    0 is returned. *)
Example cpu_init_one_stops_at_privileged_entry :
  first_failure env_dune_fails 1 (two_core_table table_of_two)
  = Some PrivilegedEntry
  ∧ (λ r, (r.1, steps_of (trace r.2)))
      <$> cpu_init_one 2 0 env_dune_fails 1 (two_core_table table_of_two)
    = Some (Returned (-1), take 4 all_steps)
  ∧ first_failure env_ok 1 (two_core_table table_of_two) = None
  ∧ (λ r, (r.1, steps_of (trace r.2)))
      <$> cpu_init_one 2 0 env_ok 1 (two_core_table table_of_two)
    = Some (Returned 0, all_steps).
Proof. split_and!; vm_compute; reflexivity. Qed.

(** C9.  The assertion of registry population does not fire for core 0
    when discovery recorded no entry for it and a slot of [apicid_map]
    was never written.  With a table of two slots and a file that has
    the records of core 1 only, [cpu_init] returns 0 and records the one
    entry, for core 1; the bring-up of core 0 then passes the assertion,
    by the slot that was never written, returns 0 and leaves 0 as the
    [apicid] of core 0.  The same happens with a file that has no
    identifier record at all. *)
Theorem cpu_init_one_core_0_without_record :
  records (fgets_lines cpuinfo_of_core_1) 0 = [mk_apicid_entry 1 11]
  ∧ start_core_0 cpuinfo_of_core_1 = Some (0, Returned 0, Some 0)
  ∧ records (fgets_lines cpuinfo_without_apicid) 0 = []
  ∧ start_core_0 cpuinfo_without_apicid = Some (0, Returned 0, Some 0).
Proof. split_and!; vm_compute; reflexivity. Qed.

(** A stream in which the second identifier record has no processor
    record of its own: the scan returns 0 and enters both records, the
    second one paired with processor 0. *)
Lemma parse_cpuinfo_accepts_out_of_order :
  (λ r, (r.1, take 2 (apicid_map r.2)))
    <$> parse_cpuinfo 4 cpuinfo_out_of_order 0 fresh_table
  = Some (0, [mk_apicid_entry 0 0; mk_apicid_entry 0 1]).
Proof. vm_compute. reflexivity. Qed.

Lemma parse_cpuinfo_result_witness :
  ∃ st',
    parse_cpuinfo 4 cpuinfo_malformed 0 fresh_table
    = Some ((if scan_fails cpuinfo_malformed then - EIO else 0), st') ∧
    apicid_map st'
    = (if fopen_ok cpuinfo_malformed
       then overwrite 0
              (records (accepted_lines (fgets_lines cpuinfo_malformed)) 0)
              (apicid_map fresh_table)
       else apicid_map fresh_table).
Proof.
  apply (parse_cpuinfo_result 4 cpuinfo_malformed 0 fresh_table).
  - reflexivity.
  - vm_compute. lia.
Defined.

(** * Further properties of the code *)

(** ** Submissions *)

(** [cpu_run_on_one] when the pool of the calling core is empty. *)
Lemma cpu_run_on_one_no_runner (self f d cpu : Z) (st : state) :
  cpu < to_uint (cpu_count st) →
  runners_mempool st !! self = Some [] →
  cpu_run_on_one self f d cpu st
  = Some (- ENOMEM, set_trace (trace st ++ [EvAlloc self NULL]) st).
Proof.
  intros Hcpu Hpool. unfold cpu_run_on_one, mempool_alloc. unfold_M. simpl.
  rewrite bool_decide_eq_false_2 by lia. by rewrite Hpool.
Qed.

(** X1. A call of [cpu_run_on_one] for a target that passes the range
    check, made on a core whose own pool is empty, returns [-ENOMEM]
    whatever the pool of the target holds: the lists, the pools and the
    runners are as they were and the only operation performed is the
    allocation that failed. *)
Theorem cpu_run_on_one_pool_empty (self f d cpu : Z) (st : state) :
  cpu < to_uint (cpu_count st) →
  runners_mempool st !! self = Some [] →
  ∃ st',
    cpu_run_on_one self f d cpu st = Some (- ENOMEM, st') ∧
    trace st' = trace st ++ [EvAlloc self NULL] ∧
    runlist st' = runlist st ∧
    runners_mempool st' = runners_mempool st ∧
    heap st' = heap st.
Proof.
  intros Hcpu Hpool. eexists.
  split; [by apply cpu_run_on_one_no_runner|]. by split_and!.
Qed.

(** X2. From a state that satisfies the invariant, a call of
    [cpu_run_on_one] made on a core that has its per-cpu area always
    returns, with 0, [-EINVAL] or [-ENOMEM]; it calls no work function
    and frees nothing, it takes and releases locks as it should and
    leaves none held, and the invariant holds again, the work queued
    being what was queued plus what the call pushed. *)
Theorem cpu_run_on_one_keeps_invariant (st : state) (Q : Z → list item)
    (runner : Z) (inflight : list item) (from f d cpu : Z) :
  inv st Q runner inflight →
  is_Some (runners_mempool st !! from) →
  0 ≤ cpu →
  ∃ ret st' tr,
    cpu_run_on_one from f d cpu st = Some (ret, st') ∧
    (ret = 0 ∨ ret = - EINVAL ∨ ret = - ENOMEM) ∧
    trace st' = trace st ++ tr ∧
    calls tr = [] ∧
    frees tr = [] ∧
    lock_discipline tr ∧
    inv st' (after_pushes tr Q) runner inflight.
Proof.
  intros Hinv Hfrom Hcpu.
  destruct (cpu_run_on_one_inv st Q runner inflight from f d cpu Hinv Hfrom Hcpu)
    as (ret & st' & tr & Hrun & (Htrace & _ & _ & _ & Hlocks) & Hinv'
        & Hcalls & Hfrees & _).
  exists ret, st', tr. split; [exact Hrun|]. split; [|by split_and!].
  destruct (decide (cpu_count st ≤ cpu)) as [Hbad|Hok].
  { rewrite cpu_run_on_one_range_check in Hrun
      by (pose proof (to_uint_le (cpu_count st)); destruct Hinv; lia).
    injection Hrun as <- _. auto. }
  destruct Hfrom as [[|p rest] Hpool].
  { rewrite cpu_run_on_one_no_runner in Hrun
      by (first [rewrite to_uint_small; destruct Hinv; lia | done]).
    injection Hrun as <- _. auto. }
  destruct (cpu_run_on_one_success st Q runner inflight from f d cpu p rest
              Hinv ltac:(lia) Hpool) as (st'' & rl & _ & Hrun' & _).
  rewrite Hrun' in Hrun. injection Hrun as <- _. auto.
Qed.

(** X3. A successful call of [cpu_run_on_one] puts the new work in front
    of the work already queued for the target, which stays queued in the
    order it had; the lists of the other cores are not touched. *)
Theorem cpu_run_on_one_pushes_in_front (st : state) (Q : Z → list item)
    (runner : Z) (inflight : list item) (from f d cpu p : Z)
    (rest : list Z) :
  inv st Q runner inflight →
  0 ≤ cpu < cpu_count st →
  runners_mempool st !! from = Some (p :: rest) →
  ∃ st' rl',
    cpu_run_on_one from f d cpu st = Some (0, st') ∧
    runlist st' !! cpu = Some rl' ∧
    chain (heap st') (next_runner rl') ((p, f, d) :: Q cpu) ∧
    ∀ c rl, c ≠ cpu → runlist st !! c = Some rl →
            runlist st' !! c = Some rl ∧
            chain (heap st') (next_runner rl) (Q c).
Proof.
  intros Hinv Hcpu Hpool.
  destruct (cpu_run_on_one_success st Q runner inflight from f d cpu p rest
              Hinv Hcpu Hpool)
    as (st' & rl & Hrl & Hrun & _ & _ & Hlist & _ & _ & Hinv').
  exists st', (mk_cpu_runlist false p). split; [exact Hrun|].
  assert (Hcpu' : runlist st' !! cpu = Some (mk_cpu_runlist false p))
    by (by rewrite Hlist, lookup_insert_eq).
  split; [exact Hcpu'|]. split.
  - pose proof (inv_queue _ _ _ _ Hinv' cpu _ Hcpu') as Hchain.
    cbv beta in Hchain. by rewrite decide_True in Hchain.
  - intros c rl0 Hne Hrl0.
    assert (Hc : runlist st' !! c = Some rl0)
      by (by rewrite Hlist, lookup_insert_ne).
    split; [exact Hc|].
    pose proof (inv_queue _ _ _ _ Hinv' c _ Hc) as Hchain.
    cbv beta in Hchain. by rewrite decide_False in Hchain.
Qed.

(** X4. Submissions made one after the other on one core, with no drain
    in between: as long as the pool of that core has a free runner they
    return 0, each taking the runner on top of the pool, and from then
    on every one of them returns [-ENOMEM]. *)
Theorem submit_each_exhausts_pool (subs : list submission) (self : Z) :
  ∀ (st : state) (Q : Z → list item) (runner : Z) (inflight : list item),
    inv st Q runner inflight →
    is_Some (runners_mempool st !! self) →
    Forall (λ s, sub_from s = self ∧ 0 ≤ sub_cpu s < cpu_count st) subs →
    ∃ st',
      submit_each subs st
      = Some (replicate (length subs `min` length (pool st self)) 0
              ++ replicate (length subs - length (pool st self)) (- ENOMEM),
              st') ∧
      pool st' self = drop (length subs) (pool st self).
Proof.
  induction subs as [|s subs IH]; intros st Q runner inflight Hinv Hself Hsubs.
  { exists st. split; [reflexivity|]. by rewrite drop_0. }
  apply Forall_cons in Hsubs as [[Hfrom Hcpu] Hsubs].
  cbn [submit_each]. unfold_M. rewrite Hfrom.
  destruct Hself as [[|p rest] Hpool].
  - rewrite (cpu_run_on_one_no_runner self _ _ _ st)
      by (first [rewrite to_uint_small; destruct Hinv; lia | done]).
    set (st1 := set_trace _ st).
    destruct (IH st1 Q runner inflight) as (st' & Hrun & Hpool');
      [by apply inv_set_trace|by (exists []) |exact Hsubs|].
    exists st'. rewrite Hrun.
    assert (Hst1 : pool st1 self = []) by (by apply pool_lookup).
    rewrite Hst1 in Hpool' |- *. rewrite (pool_lookup _ _ _ Hpool).
    split; [|by rewrite Hpool', !drop_nil].
    cbn [length]. by rewrite !Nat.min_0_r, !Nat.sub_0_r.
  - destruct (cpu_run_on_one_success st Q runner inflight self
                (sub_func s) (sub_data s) (sub_cpu s) p rest Hinv Hcpu Hpool)
      as (st1 & rl & _ & Hrun1 & _ & Hpools & _ & _ & Hcount & Hinv1).
    rewrite Hrun1.
    assert (Hst1 : pool st1 self = rest)
      by (apply pool_lookup; by rewrite Hpools, lookup_insert_eq).
    destruct (IH st1 _ runner inflight Hinv1) as (st' & Hrun & Hpool').
    { by rewrite Hpools, lookup_insert_eq. }
    { by rewrite Hcount. }
    exists st'. rewrite Hrun, Hst1 in *. rewrite (pool_lookup _ _ _ Hpool).
    split; [|by rewrite Hpool'].
    reflexivity.
Qed.

(** ** Drains *)

Lemma calls_submitted (T : Z) (subs : list submission) :
  ∀ ps : list Z,
    length ps = length subs →
    call_on T <$> zip_with submitted_item subs ps
    = (λ s, (T, sub_func s, sub_data s)) <$> subs.
Proof.
  induction subs as [|s subs IH]; intros [|p ps] Hlen; try done.
  cbn [zip_with fmap list_fmap]. f_equal. apply IH. simpl in Hlen. lia.
Qed.

Lemma pushes_quiet (c T : Z) (l : list item) : pushes c (quiet_trace T l) = [].
Proof.
  induction l as [|i l IH]; [done|]. by rewrite quiet_trace_cons, pushes_app, IH.
Qed.

Section DispatchFurther.

Variable body : Z → Z → list submission.

(** X5. Any number of submissions to a core whose list is empty, all of
    which succeeded, followed by one call of [cpu_do_bookkeeping] on
    that core: the calls made are those of the submissions, once each,
    the last submitted first, whatever the functions called submit in
    turn. *)
Theorem cpu_do_bookkeeping_reverse_order (st0 st1 : state) (T : Z)
    (rl : cpu_runlist) (subs : list submission) (rets : list Z) :
  well_formed st0 = true →
  0 ≤ T < cpu_count st0 →
  runlist st0 !! T = Some rl →
  next_runner rl = NULL →
  Forall (λ s, sub_cpu s = T) subs →
  bodies_on_cores body st0 →
  submit_each subs st0 = Some (rets, st1) →
  Forall (λ ret, ret = 0) rets →
  ∃ st2 tr,
    cpu_do_bookkeeping body (length subs) T st1 = Some (tt, st2) ∧
    trace st2 = trace st1 ++ tr ∧
    calls tr = reverse ((λ s, (T, sub_func s, sub_data s)) <$> subs).
Proof.
  intros Hwf HT Hrl Hhead Htarget Hbody Hrun Hrets.
  destruct (decide (subs = [])) as [->|Hsubs].
  { injection Hrun as _ <-. exists st0, [].
    split; [by apply (cpu_do_bookkeeping_skip body _ T st0 rl)|].
    split; [by rewrite app_nil_r|done]. }
  destruct (drain_after_submissions body st0 st1 T rl subs rets (length subs)
              Hwf HT Hrl Hhead Hsubs Htarget)
    as (ps & st2 & tr & rl1 & Hlen & _ & _ & _ & _ & Hrun2 & Hacc & Hcalls & _).
  { intros s s' _ Hs'. exact (Hbody _ _ s' Hs'). }
  { exact Hrun. }
  { exact Hrets. }
  { done. }
  eexists st2, _. split; [exact Hrun2|].
  destruct Hacc as (Htr & _). split; [exact Htr|].
  rewrite calls_app, Hcalls, fmap_reverse.
  by rewrite (calls_submitted T subs ps Hlen).
Qed.

(** X6. A call of [cpu_do_bookkeeping] on a core whose queued functions
    submit nothing returns with the list of that core empty and its
    lock free, and a second call right after it changes nothing. *)
Theorem cpu_do_bookkeeping_twice (st : state) (T : Z) (rl : cpu_runlist)
    (fuel : nat) :
  well_formed st = true →
  runlist st !! T = Some rl →
  (length (queue st T) ≤ fuel)%nat →
  (∀ i, i ∈ queue st T → body (item_call i).1 (item_call i).2 = []) →
  ∃ st1,
    cpu_do_bookkeeping body fuel T st = Some (tt, st1) ∧
    runlist st1 !! T = Some (mk_cpu_runlist false NULL) ∧
    ∀ fuel', cpu_do_bookkeeping body fuel' T st1 = Some (tt, st1).
Proof.
  intros Hwf Hrl Hfuel Hquiet.
  pose proof (well_formed_inv st Hwf) as Hinv.
  destruct (decide (next_runner rl = NULL)) as [Hhead|Hhead].
  { exists st. rewrite (cpu_do_bookkeeping_skip body fuel T st rl Hrl Hhead).
    split; [done|]. split.
    - rewrite Hrl. f_equal. pose proof (inv_lock _ _ _ _ Hinv T rl Hrl).
      destruct rl; simpl in *; congruence.
    - intros fuel'. by apply (cpu_do_bookkeeping_skip body fuel' T st rl). }
  destruct (cpu_do_bookkeeping_inv body st (queue st) T rl fuel Hinv Hrl Hhead
              Hfuel)
    as (st1 & tr & Hrun & Hacc & Hinv1 & _ & _ & Htr).
  { intros i s Hi. rewrite (Hquiet i Hi). by intros ?%elem_of_nil. }
  specialize (Htr Hquiet). subst tr.
  assert (Hdom : T ∈ dom (runlist st1)).
  { rewrite (inv_dom _ _ _ _ Hinv1). destruct Hacc as (_ & -> & _).
    rewrite <- (inv_dom _ _ _ _ Hinv). by apply elem_of_dom. }
  apply elem_of_dom in Hdom as [rl1 Hrl1].
  pose proof (inv_queue _ _ _ _ Hinv1 T rl1 Hrl1) as Hchain.
  unfold after_pushes in Hchain. rewrite pushes_quiet, decide_True in Hchain
    by done.
  simpl in Hchain.
  pose proof (inv_lock _ _ _ _ Hinv1 T rl1 Hrl1) as Hlock.
  exists st1. split; [exact Hrun|]. split.
  - rewrite Hrl1. destruct rl1; simpl in *; congruence.
  - intros fuel'. by apply (cpu_do_bookkeeping_skip body fuel' T st1 rl1).
Qed.

(** X7. Whatever the functions it calls submit, a call of
    [cpu_do_bookkeeping] on a core with work queued calls the function
    of every item that was on the list when it started, in the order of
    the list, and returns every one of these runners, which are
    distinct, to the pool of the core that drains, in the same order;
    every pool ends up with what it had, less what was allocated from it
    and plus what was freed to it in the meantime, and the invariant
    holds at the end. *)
Theorem cpu_do_bookkeeping_frees_what_it_ran (st : state) (T : Z)
    (rl : cpu_runlist) (fuel : nat) :
  well_formed st = true →
  runlist st !! T = Some rl →
  next_runner rl ≠ NULL →
  (length (queue st T) ≤ fuel)%nat →
  bodies_on_cores body st →
  ∃ st' tr Q',
    cpu_do_bookkeeping body fuel T st = Some (tt, st') ∧
    trace st' = trace st ++ tr ∧
    calls tr = call_on T <$> queue st T ∧
    frees tr = free_on T <$> queue st T ∧
    NoDup (item_ptr <$> queue st T) ∧
    (∀ c, (length (pool st' c) + count_pool c (allocs tr)
           = length (pool st c) + count_pool c (frees tr))%nat) ∧
    lock_discipline tr ∧
    inv st' Q' NULL [].
Proof.
  intros Hwf Hrl Hhead Hfuel Hbody.
  pose proof (well_formed_inv st Hwf) as Hinv.
  destruct (cpu_do_bookkeeping_inv body st (queue st) T rl fuel Hinv Hrl Hhead
              Hfuel)
    as (st' & tr & Hrun & (Htrace & _ & _ & Hpools & Hlocks) & Hinv' & Hcalls
        & Hfrees & _).
  { intros i s _ Hs. exact (Hbody _ _ s Hs). }
  eexists st', _, _. split; [exact Hrun|]. split; [exact Htrace|].
  rewrite calls_app, frees_app. split; [exact Hcalls|]. split; [exact Hfrees|].
  split.
  { destruct (inv_sep _ _ _ _ Hinv) as (Hnodup & _). exact (Hnodup (Queued T)). }
  split; [exact Hpools|]. split; [exact Hlocks|exact Hinv'].
Qed.

End DispatchFurther.

(** X8. A core whose list is empty and whose pool has a free runner
    submits work to itself and then drains, the function submitting
    nothing: the function is called once with its argument, and after
    the drain the lists and the pools of all cores are exactly as they
    were before the submission, the runner being back on top of the
    pool it came from. *)
Theorem self_submission_round_trip (body : Z → Z → list submission)
    (st : state) (T f d p : Z) (rest : list Z) (fuel : nat) :
  0 ≤ T < to_uint (cpu_count st) →
  runlist st !! T = Some (mk_cpu_runlist false NULL) →
  runners_mempool st !! T = Some (p :: rest) →
  p ≠ NULL →
  body f d = [] →
  ∃ st1 st2,
    cpu_run_on_one T f d T st = Some (0, st1) ∧
    cpu_do_bookkeeping body (S fuel) T st1 = Some (tt, st2) ∧
    calls (drop (length (trace st)) (trace st2)) = [(T, f, d)] ∧
    runlist st2 = runlist st ∧
    runners_mempool st2 = runners_mempool st.
Proof.
  intros HT Hrl Hpool Hp Hbody.
  eexists _, _. split.
  { unfold cpu_run_on_one, mempool_alloc, store_runner, spin_lock,
      spin_unlock, set_next_runner. unfold_M. simpl.
    rewrite bool_decide_eq_false_2 by lia. rewrite Hpool. simpl.
    rewrite !(bool_decide_eq_false_2 (p = NULL)) by done. simpl.
    rewrite Hrl. simpl.
    repeat first [rewrite lookup_insert_eq | progress simpl].
    reflexivity. }
  split.
  { unfold cpu_do_bookkeeping, run_chain, call, load_runner, mempool_free,
      spin_lock, spin_unlock, set_next_runner. unfold_M. simpl.
    repeat first [ rewrite lookup_insert_eq
                 | rewrite (bool_decide_eq_false_2 (p = NULL)) by done
                 | rewrite (bool_decide_eq_true_2 (NULL = NULL)) by done
                 | rewrite Hbody
                 | progress simpl ].
    reflexivity. }
  simpl. split.
  { rewrite <- !app_assoc. by rewrite drop_app_length. }
  rewrite !insert_insert_eq.
  split; by apply insert_id.
Qed.

(** ** Bring-up of a core *)

(** Where the search stops before the last slot, it stops at the first
    slot for the core. *)
Lemma find_processor_first (m : list apicid_entry) (cpu : Z) (n i k : nat) :
  find_processor m cpu n i = Some k →
  (k < i + n)%nat →
  ∃ e, m !! k = Some e ∧ to_uint (map_processor e) = cpu ∧
       ∀ j e', (i ≤ j < k)%nat → m !! j = Some e' →
               to_uint (map_processor e') ≠ cpu.
Proof.
  revert i. induction n as [|n IH]; intros i; simpl.
  - intros [= <-] Hlt. lia.
  - destruct (m !! i) as [e|] eqn:He; [|discriminate].
    case_bool_decide as Hcpu.
    + intros [= <-] _. exists e. split; [exact He|]. split; [exact Hcpu|].
      intros; lia.
    + intros Hk Hlt. destruct (IH (S i) Hk) as (e' & He' & Hproc & Hfirst);
        [lia|].
      exists e'. split; [exact He'|]. split; [exact Hproc|].
      intros j e'' Hj Hje. destruct (decide (j = i)) as [->|Hne].
      * congruence.
      * apply (Hfirst j e''); [lia|exact Hje].
Qed.

Section BringUpFurther.

Variable NCPU : nat.
Variable percpu_len : Z.

(** X9. However a call of [cpu_init_one] for a core ends, it leaves
    [cpu_count], the table [apicid_map], the datastore and the runners
    as they were, and it touches the per-cpu variables of no other
    core: their run lists and pools in particular are unchanged. *)
Theorem cpu_init_one_frame (env : bringup_env) (cpu : Z) (st st' : state)
    (out : outcome) :
  cpu_init_one NCPU percpu_len env cpu st = Some (out, st') →
  cpu_count st' = cpu_count st ∧
  apicid_map st' = apicid_map st ∧
  runners_datastore st' = runners_datastore st ∧
  heap st' = heap st ∧
  ∀ c, c ≠ cpu →
       runlist st' !! c = runlist st !! c ∧
       runners_mempool st' !! c = runners_mempool st !! c ∧
       cpu_id st' !! c = cpu_id st !! c ∧
       cpu_numa_node st' !! c = cpu_numa_node st !! c ∧
       apicid st' !! c = apicid st !! c ∧
       percpu_offsets st' !! c = percpu_offsets st !! c.
Proof.
  unfold cpu_init_one, cpu_init_percpu. unfold_M. simpl.
  repeat (case_bool_decide; simpl); try discriminate.
  all: repeat (case_match; simpl; try discriminate).
  all: repeat (case_bool_decide; simpl); try discriminate.
  all: intros [= <- <-]; simpl.
  all: split_and!; try reflexivity.
  all: intros c Hc; by rewrite ?lookup_insert_ne.
Qed.

(** X10. When [cpu_init_one] returns 0 the core is ready for work: all
    six steps were performed, the core was in range and the thread runs
    on it, its per-cpu variables hold its number, its NUMA node and the
    identifier of the first slot of the table that is for it, its run
    list is empty with the lock free, its pool holds the objects the
    pool service created, and a drain on it leaves everything as it
    is. *)
Theorem cpu_init_one_ready (env : bringup_env) (cpu : Z) (st st' : state) :
  cpu_init_one NCPU percpu_len env cpu st = Some (Returned 0, st') →
  cpu < to_uint (cpu_count st) ∧
  getcpu_cpu env = cpu ∧
  steps_of (drop (length (trace st)) (trace st')) = all_steps ∧
  cpu_id st' !! cpu = Some cpu ∧
  cpu_numa_node st' !! cpu = Some (getcpu_node env) ∧
  (∃ k e, first_entry_for (apicid_map st) cpu k e ∧
          apicid st' !! cpu = Some (to_uint (map_apicid e))) ∧
  log_is_early_boot st' = false ∧
  runlist st' !! cpu = Some (mk_cpu_runlist false NULL) ∧
  runners_mempool st' !! cpu = Some (mempool_create_objs env) ∧
  ∀ body fuel, cpu_do_bookkeeping body fuel cpu st' = Some (tt, st').
Proof.
  unfold cpu_init_one, cpu_init_percpu. unfold_M. simpl.
  repeat (case_bool_decide; simpl); try discriminate.
  all: try (intros [= ? ?]; simplify_eq; fail).
  all: repeat (case_match; simpl; try discriminate).
  all: repeat (case_bool_decide; simpl); try discriminate.
  all: try (intros [= ? ?]; simplify_eq; fail).
  all: intros [= <-]; simpl.
  all: rewrite ?lookup_insert_eq.
  all: split_and!; try reflexivity; try lia.
  all: try (by destruct (decide (cpu = getcpu_cpu env)); [|tauto]).
  all: try (rewrite <- ?app_assoc; rewrite drop_app_length; reflexivity).
  - match goal with
    | Hfind : find_processor _ _ _ _ = Some ?k, Hat : _ !! ?k = Some ?e |- _ =>
        destruct (find_processor_first _ _ _ _ _ Hfind) as (e' & He' & Hp & Hf);
          [lia|]; exists k, e; rewrite Hat in He'; simplify_eq
    end.
    split; [|reflexivity]. split; [done|]. split; [done|].
    intros j e'' Hj. apply Hf. lia.
  - intros body fuel.
    apply (cpu_do_bookkeeping_skip body fuel cpu _ (mk_cpu_runlist false NULL));
      [|reflexivity].
    simpl. by rewrite lookup_insert_eq.
Qed.

(** X17. When the pages can be allocated, the allocator answering with
    an address that is neither [MAP_FAILED] nor null, [cpu_init_percpu]
    asks for the smallest number of 2 MB pages that hold the per-cpu
    section together with the area in front of it, on the NUMA node it
    is given, so that the area it clears lies within the window; it
    returns the address of the window, records the address of the
    per-cpu area, which starts [PERCPU_DUNE_LEN] bytes further, as the
    offset of the core, and leaves the core with an empty, unlocked run
    list and a pool without objects. *)
Theorem cpu_init_percpu_window (env : bringup_env) (cpu numa_node : Z)
    (st : state) :
  0 ≤ percpu_len →
  cpu < Z.of_nat NCPU →
  mem_alloc_pages_onnode env ≠ MAP_FAILED →
  mem_alloc_pages_onnode env ≠ NULL →
  ∃ st' nr,
    cpu_init_percpu NCPU percpu_len env cpu numa_node st
    = Some (mem_alloc_pages_onnode env, st') ∧
    trace st' = trace st ++ [EvAllocPages nr PGSIZE_2MB numa_node] ∧
    (nr - 1) * PGSIZE_2MB < PERCPU_DUNE_LEN + percpu_len ≤ nr * PGSIZE_2MB ∧
    percpu_offsets st' !! cpu
    = Some (mem_alloc_pages_onnode env + PERCPU_DUNE_LEN) ∧
    runlist st' !! cpu = Some (mk_cpu_runlist false NULL) ∧
    runners_mempool st' !! cpu = Some [] ∧
    cpu_id st' !! cpu = Some 0 ∧
    cpu_numa_node st' !! cpu = Some 0 ∧
    apicid st' !! cpu = Some 0.
Proof.
  intros Hlen Hcpu Hmap Hnull. unfold cpu_init_percpu. unfold_M. simpl.
  rewrite (bool_decide_eq_false_2 _ Hmap).
  rewrite (bool_decide_eq_false_2 _ Hnull).
  rewrite bool_decide_eq_false_2 by lia.
  eexists _, _. split; [reflexivity|]. simpl. rewrite !lookup_insert_eq.
  split_and!; try reflexivity.
  all: unfold div_up, PGSIZE_2MB, PERCPU_DUNE_LEN.
  all: pose proof (Z.div_mod (percpu_len + 512 + 2 ^ 21 - 1) (2 ^ 21)
                     ltac:(lia)) as Hdiv.
  all: pose proof (Z.mod_pos_bound (percpu_len + 512 + 2 ^ 21 - 1) (2 ^ 21)
                     ltac:(lia)) as Hmod.
  all: lia.
Qed.

(** A bring-up that reaches registry population with a table that has
    a slot for the core. *)
Lemma cpu_init_one_first_entry (env : bringup_env) (cpu : Z) (st : state)
    (k : nat) (e : apicid_entry) :
  cpu < to_uint (cpu_count st) →
  cpu < Z.of_nat NCPU →
  length (apicid_map st) = NCPU →
  reaches_registry env cpu →
  first_entry_for (apicid_map st) cpu k e →
  ∃ st',
    cpu_init_one NCPU percpu_len env cpu st
    = Some (Returned (mempool_create_ret env), st') ∧
    apicid st' !! cpu = Some (to_uint (map_apicid e)).
Proof.
  intros Hcount Hcpu Hlen Hreach (Hk & Hproc & Hfirst).
  destruct (cpu_init_one_registry NCPU percpu_len env cpu st Hcount Hcpu Hlen
              Hreach)
    as (j & out & st' & Hfind & Hrun & _ & _ & _ & _ & Hok).
  destruct (find_processor_spec (apicid_map st) cpu NCPU 0)
    as (j' & Hj' & Hrange & Hbefore & Hat); [lia|].
  assert (j' = j) as -> by congruence.
  assert (j = k) as ->.
  { destruct (decide (j < k)%nat) as [Hlt|Hnlt].
    - destruct Hat as (e' & He' & Hproc'); [apply lookup_lt_Some in Hk; lia|].
      exfalso. exact (Hfirst j e' Hlt He' Hproc').
    - destruct (decide (k < j)%nat) as [Hgt|Hngt]; [|lia].
      exfalso. apply (Hbefore k e); [lia|exact Hk|exact Hproc]. }
  destruct Hok as (e' & He' & -> & Hid & _).
  { apply lookup_lt_Some in Hk. lia. }
  exists st'. split; [exact Hrun|]. congruence.
Qed.

(** A bring-up that reaches registry population with a table that has
    no slot for the core. *)
Lemma cpu_init_one_no_entry (env : bringup_env) (cpu : Z) (st : state) :
  cpu < to_uint (cpu_count st) →
  cpu < Z.of_nat NCPU →
  length (apicid_map st) = NCPU →
  reaches_registry env cpu →
  (∀ e, e ∈ apicid_map st → to_uint (map_processor e) ≠ cpu) →
  ∃ st', cpu_init_one NCPU percpu_len env cpu st = Some (AssertFailed, st').
Proof.
  intros Hcount Hcpu Hlen Hreach Hnone.
  destruct (cpu_init_one_registry NCPU percpu_len env cpu st Hcount Hcpu Hlen
              Hreach)
    as (k & out & st' & Hfind & Hrun & _ & _ & _ & Hfail & _).
  destruct (find_processor_spec (apicid_map st) cpu NCPU 0)
    as (k' & Hk' & Hrange & _ & Hat); [lia|].
  assert (k' = k) as -> by congruence.
  exists st'. destruct (decide (k < NCPU)%nat) as [Hlt|Hge].
  - destruct Hat as (e & He & Hproc); [lia|].
    exfalso. apply (Hnone e); [|exact Hproc].
    apply list_elem_of_lookup. eauto.
  - destruct Hfail as [-> _]; [lia|]. exact Hrun.
Qed.

(** X11. A table of which the records fill only the first slots, the
    others being as they were at start-up, zero, and in which no record
    is for the core: the bring-up of core 0 passes the assertion, by
    the first slot that was never written, and stores 0 as the
    identifier of the core; the bring-up of any other core ends in the
    failed assertion. *)
Theorem cpu_init_one_unused_slot (env : bringup_env) (cpu : Z) (st : state)
    (rs : list apicid_entry) (n : nat) :
  cpu < to_uint (cpu_count st) →
  cpu < Z.of_nat NCPU →
  apicid_map st = rs ++ replicate (S n) (mk_apicid_entry 0 0) →
  length (apicid_map st) = NCPU →
  reaches_registry env cpu →
  (∀ e, e ∈ rs → to_uint (map_processor e) ≠ cpu) →
  (cpu = 0 →
   ∃ st',
     cpu_init_one NCPU percpu_len env cpu st
     = Some (Returned (mempool_create_ret env), st') ∧
     apicid st' !! cpu = Some 0) ∧
  (cpu ≠ 0 →
   ∃ st', cpu_init_one NCPU percpu_len env cpu st = Some (AssertFailed, st')).
Proof.
  intros Hcount Hcpu Htable Hlen Hreach Hrs. split.
  - intros ->.
    apply (cpu_init_one_first_entry env 0 st (length rs) (mk_apicid_entry 0 0)
             Hcount Hcpu Hlen Hreach).
    rewrite Htable. split; [|split; [reflexivity|]].
    + by rewrite lookup_app_r, Nat.sub_diag by lia.
    + intros j e' Hj Hje'. rewrite lookup_app_l in Hje' by exact Hj.
      apply Hrs. apply list_elem_of_lookup. eauto.
  - intros Hne.
    apply (cpu_init_one_no_entry env cpu st Hcount Hcpu Hlen Hreach).
    intros e. rewrite Htable, elem_of_app. intros [He|He]; [by apply Hrs|].
    apply elem_of_replicate in He as [-> _]. simpl. unfold to_uint.
    rewrite Z.mod_0_l by lia. congruence.
Qed.

End BringUpFurther.

(** ** Start-up *)

Section InitFurther.

Variable NCPU : nat.
Variable percpu_len : Z.

(** The scan of a file that could be opened, up to the first line that
    is not accepted. *)
Lemma parse_cpuinfo_opened (f : cpuinfo) (processor0 : Z) (st : state) :
  fopen_ok f = true →
  length (apicid_map st) = NCPU →
  (length (records (accepted_lines (fgets_lines f)) processor0) ≤ NCPU)%nat →
  ∃ st',
    parse_cpuinfo NCPU f processor0 st
    = Some ((if scan_fails f then - EIO else 0), st') ∧
    apicid_map st'
    = overwrite 0 (records (accepted_lines (fgets_lines f)) processor0)
        (apicid_map st) ∧
    cpu_count st' = cpu_count st ∧
    runners_datastore st' = runners_datastore st ∧
    trace st' = trace st ++ [EvFopen; EvFclose].
Proof.
  intros Hopen Hlen Hfit. unfold parse_cpuinfo, scan_fails. unfold_M. simpl.
  rewrite Hopen. simpl.
  destruct (accepted_lines_split (fgets_lines f))
    as [Hgood [[Hall Heq]|(Hall & bad & rest & Hbad & Heq)]];
    rewrite Hall; simpl;
    set (good := accepted_lines (fgets_lines f)) in *;
    rewrite Heq.
  - pose proof (scan_cpuinfo_accepted NCPU good [] (ends_at_eof f) processor0 0
                  (set_trace (trace st ++ [EvFopen]) st) Hgood Hfit Hlen)
      as Hscan.
    rewrite app_nil_r in Hscan. rewrite Hscan.
    simpl. destruct (ends_at_eof f); eexists; simpl;
      by rewrite <- app_assoc.
  - rewrite scan_cpuinfo_accepted by (simpl; first [assumption | lia]).
    rewrite scan_cpuinfo_rejected by exact Hbad.
    eexists; simpl; by rewrite <- app_assoc.
Qed.

Lemma scan_cpuinfo_overflow (lines : list string) (at_eof : bool) :
  ∀ (processor : Z) (count : nat) (st : state),
    (count ≤ NCPU)%nat →
    (NCPU < count + length (records (accepted_lines lines) processor))%nat →
    scan_cpuinfo NCPU lines at_eof processor count st = None.
Proof.
  induction lines as [|buf lines IH]; intros processor count st Hcount Hover.
  { simpl in Hover. lia. }
  cbn [accepted_lines] in Hover.
  destruct (well_formed_line buf) eqn:Hbuf; [|simpl in Hover; lia].
  unfold well_formed_line in Hbuf. apply andb_prop in Hbuf as [Hp Ha].
  cbn [scan_cpuinfo records length] in *.
  unfold processor_after in *.
  destruct (String.prefix "processor" buf);
    destruct (String.prefix "apicid" buf);
    try (apply bool_decide_eq_true_1 in Hp as [p Hp]);
    try (apply bool_decide_eq_true_1 in Ha as [a Ha]);
    rewrite ?Hp, ?Ha in *; simplify_eq; cbn [from_option id length] in *.
  all: try (apply IH; [exact Hcount|exact Hover]).
  all: unfold_M.
  all: case_bool_decide as Hfull; [reflexivity|].
  all: apply IH; lia.
Qed.

(** X12. When [/proc/cpuinfo] has more [apicid] lines than [apicid_map]
    has slots, all before any line that would end the scan, the index
    is not checked and the scan writes past the last slot: the
    execution has no defined outcome. *)
Theorem parse_cpuinfo_table_overflow (f : cpuinfo) (processor0 : Z)
    (st : state) :
  fopen_ok f = true →
  (NCPU < length (records (accepted_lines (fgets_lines f)) processor0))%nat →
  parse_cpuinfo NCPU f processor0 st = None.
Proof.
  intros Hopen Hover. unfold parse_cpuinfo. unfold_M. simpl.
  rewrite Hopen. rewrite scan_cpuinfo_overflow; [reflexivity|lia|].
  simpl. exact Hover.
Qed.

Lemma scan_cpuinfo_relevant (lines : list string) (at_eof : bool) :
  ∀ (processor : Z) (count : nat) (st : state),
    scan_cpuinfo NCPU lines at_eof processor count st
    = scan_cpuinfo NCPU (List.filter relevant_line lines) at_eof processor
        count st.
Proof.
  induction lines as [|buf lines IH]; intros processor count st; [done|].
  cbn [List.filter]. unfold relevant_line at 1.
  cbn [scan_cpuinfo].
  destruct (String.prefix "processor" buf) eqn:Hp;
    destruct (String.prefix "apicid" buf) eqn:Ha; cbn [orb].
  4: apply IH.
  all: cbn [scan_cpuinfo]; rewrite Hp, Ha.
  all: destruct (sscanf_field buf); try reflexivity.
  all: unfold_M; try case_bool_decide; try reflexivity.
  all: simpl; apply IH.
Qed.

(** X13. Only the lines that start with [processor] or with [apicid]
    count: [parse_cpuinfo] returns the same value and leaves the same
    state for a file as for the file with all other lines taken out. *)
Theorem parse_cpuinfo_ignores_other_lines (f : cpuinfo) (processor0 : Z)
    (st : state) :
  parse_cpuinfo NCPU f processor0 st
  = parse_cpuinfo NCPU (relevant_only f) processor0 st.
Proof.
  unfold parse_cpuinfo, relevant_only. unfold_M. simpl.
  destruct (fopen_ok f); [|reflexivity].
  by rewrite scan_cpuinfo_relevant.
Qed.

(** A file in which every line is accepted. *)
Lemma accepted_lines_all (lines : list string) :
  forallb well_formed_line lines = true → accepted_lines lines = lines.
Proof.
  intros Hall.
  destruct (accepted_lines_split lines) as [_ [[_ Heq]|[Hnot _]]]; congruence.
Qed.

(** [cpu_init] with a count in range, a datastore that could be created
    and a file that could be opened. *)
Lemma cpu_init_scanned (sysconf_ret : Z) (f : cpuinfo) (processor0 : Z)
    (st : state) :
  0 < to_int sysconf_ret ≤ Z.of_nat NCPU →
  fopen_ok f = true →
  length (apicid_map st) = NCPU →
  (length (records (accepted_lines (fgets_lines f)) processor0) ≤ NCPU)%nat →
  ∃ st',
    cpu_init NCPU sysconf_ret 0 f processor0 st
    = Some ((if scan_fails f then - EIO else 0), st') ∧
    cpu_count st' = to_int sysconf_ret ∧
    runners_datastore st' = true ∧
    apicid_map st'
    = overwrite 0 (records (accepted_lines (fgets_lines f)) processor0)
        (apicid_map st) ∧
    trace st'
    = trace st ++ [EvLogInfo; EvCreateDatastore MAX_RUNNERS; EvFopen; EvFclose].
Proof.
  intros Hrange Hopen Hlen Hfit. unfold cpu_init. unfold_M. simpl.
  rewrite bool_decide_eq_false_2 by lia.
  match goal with
  | |- context [parse_cpuinfo NCPU f processor0 ?s] =>
      destruct (parse_cpuinfo_opened f processor0 s Hopen Hlen Hfit)
        as (st' & -> & Hmap & Hcount & Hds & Htrace)
  end.
  exists st'. simpl in *. rewrite <- !app_assoc in Htrace.
  split; [|by split_and!].
  destruct (scan_fails f); by case_bool_decide.
Qed.

(** X14. [cpu_init] returns 0 exactly when the number of cores is in
    range, the datastore could be created and the scan of
    [/proc/cpuinfo] did not fail; the table then holds the records of
    the file.  In every case [cpu_count] holds the number that was
    detected.  When the datastore cannot be created its error is
    returned and the file is not opened; when the scan fails after that,
    [-EIO] is returned and the datastore stays created. *)
Theorem cpu_init_result (sysconf_ret ds_ret : Z) (f : cpuinfo)
    (processor0 : Z) (st : state) :
  length (apicid_map st) = NCPU →
  (length (records (accepted_lines (fgets_lines f)) processor0) ≤ NCPU)%nat →
  ∃ ret st',
    cpu_init NCPU sysconf_ret ds_ret f processor0 st = Some (ret, st') ∧
    (ret = 0 ↔ 0 < to_int sysconf_ret ≤ Z.of_nat NCPU ∧ ds_ret = 0 ∧
               scan_fails f = false) ∧
    cpu_count st' = to_int sysconf_ret ∧
    (ret = 0 →
     runners_datastore st' = true ∧
     apicid_map st'
     = overwrite 0 (records (fgets_lines f) processor0) (apicid_map st)) ∧
    (0 < to_int sysconf_ret ≤ Z.of_nat NCPU → ds_ret ≠ 0 →
     ret = ds_ret ∧
     runners_datastore st' = runners_datastore st ∧
     trace st' = trace st ++ [EvLogInfo; EvCreateDatastore MAX_RUNNERS]) ∧
    (0 < to_int sysconf_ret ≤ Z.of_nat NCPU → ds_ret = 0 →
     scan_fails f = true →
     ret = - EIO ∧ runners_datastore st' = true).
Proof.
  intros Hlen Hfit.
  destruct (decide (0 < to_int sysconf_ret ≤ Z.of_nat NCPU)) as [Hrange|Hout];
    cycle 1.
  { eexists _, _. split.
    { unfold cpu_init. unfold_M. simpl.
      rewrite bool_decide_eq_true_2 by lia. reflexivity. }
    simpl. split_and!; try done; try tauto.
    split; [intros Hz; by vm_compute in Hz|tauto]. }
  destruct (decide (ds_ret = 0)) as [->|Hds]; cycle 1.
  { eexists _, _. split.
    { unfold cpu_init. unfold_M. simpl.
      rewrite bool_decide_eq_false_2 by lia.
      rewrite bool_decide_eq_true_2 by done. reflexivity. }
    simpl. rewrite <- app_assoc.
    split_and!; try done; tauto. }
  destruct (fopen_ok f) eqn:Hopen; cycle 1.
  { eexists _, _. split.
    { unfold cpu_init, parse_cpuinfo. unfold_M. simpl.
      rewrite bool_decide_eq_false_2 by lia.
      rewrite Hopen. simpl. reflexivity. }
    simpl. unfold scan_fails. rewrite Hopen. simpl.
    split_and!; try done.
    split; [intros Hz; by vm_compute in Hz|]. by intros (_ & _ & ?). }
  destruct (cpu_init_scanned sysconf_ret f processor0 st Hrange Hopen Hlen Hfit)
    as (st' & Hrun & Hcount & Hds & Hmap & _).
  eexists _, st'. split; [exact Hrun|].
  destruct (scan_fails f) eqn:Hscan.
  - split_and!; try done.
    split; [intros Hz; by vm_compute in Hz|]. by intros (_ & _ & ?).
  - split_and!; try done.
    intros _. split; [exact Hds|]. rewrite Hmap.
    rewrite accepted_lines_all; [reflexivity|].
    unfold scan_fails in Hscan.
    apply orb_false_elim in Hscan as [Hscan _].
    apply orb_false_elim in Hscan as [_ Hall].
    by apply negb_false_iff in Hall.
Qed.

Lemma overwrite_length (rs m : list apicid_entry) :
  (length rs ≤ length m)%nat → length (overwrite 0 rs m) = length m.
Proof.
  intros Hfit. unfold overwrite.
  rewrite !length_app, length_take, length_drop. lia.
Qed.

Lemma first_entry_for_overwrite (rs m : list apicid_entry) (cpu : Z)
    (k : nat) (e : apicid_entry) :
  first_entry_for rs cpu k e → first_entry_for (overwrite 0 rs m) cpu k e.
Proof.
  intros (Hk & Hproc & Hfirst). pose proof (lookup_lt_Some _ _ _ Hk) as Hlt.
  unfold overwrite. rewrite take_0. cbn [app].
  split; [by rewrite lookup_app_l|]. split; [exact Hproc|].
  intros j e' Hj. rewrite lookup_app_l by lia. by apply Hfirst.
Qed.

(** X15. Start-up followed by the bring-up of a core: when [cpu_init]
    has succeeded on a file whose first [apicid] record for the core
    carries some identifier, a call of [cpu_init_one] for a core below
    the detected count, in which the steps before registry population
    succeed, passes the assertion and stores that identifier as the
    [apicid] of the core, later records for the same core being
    ignored. *)
Theorem cpu_init_then_cpu_init_one (sysconf_ret : Z) (f : cpuinfo)
    (processor0 : Z) (env : bringup_env) (cpu : Z) (st : state) (k : nat)
    (e : apicid_entry) :
  length (apicid_map st) = NCPU →
  0 < to_int sysconf_ret ≤ Z.of_nat NCPU →
  scan_fails f = false →
  (length (records (fgets_lines f) processor0) ≤ NCPU)%nat →
  0 ≤ cpu < to_int sysconf_ret →
  reaches_registry env cpu →
  first_entry_for (records (fgets_lines f) processor0) cpu k e →
  ∃ st1 st2,
    cpu_init NCPU sysconf_ret 0 f processor0 st = Some (0, st1) ∧
    cpu_init_one NCPU percpu_len env cpu st1
    = Some (Returned (mempool_create_ret env), st2) ∧
    apicid st2 !! cpu = Some (to_uint (map_apicid e)).
Proof.
  intros Hlen Hrange Hscan Hfit Hcpu Hreach Hfirst.
  pose proof Hscan as Hparts. unfold scan_fails in Hparts.
  apply orb_false_elim in Hparts as [Hparts _].
  apply orb_false_elim in Hparts as [Hopen Hall].
  apply negb_false_iff in Hopen, Hall.
  pose proof (accepted_lines_all _ Hall) as Hacc.
  destruct (cpu_init_scanned sysconf_ret f processor0 st Hrange Hopen Hlen)
    as (st1 & Hrun & Hcount & _ & Hmap & _); [by rewrite Hacc|].
  rewrite Hscan, Hacc in *.
  destruct (cpu_init_one_first_entry NCPU percpu_len env cpu st1 k e)
    as (st2 & Hrun2 & Hid).
  { rewrite Hcount, to_uint_small; [lia|].
    unfold to_int in *. pose proof (Z.mod_pos_bound (sysconf_ret + 2 ^ 31)
                                      (2 ^ 32)). lia. }
  { lia. }
  { rewrite Hmap, overwrite_length; [exact Hlen|]. by rewrite Hlen. }
  { exact Hreach. }
  { rewrite Hmap. by apply first_entry_for_overwrite. }
  by exists st1, st2.
Qed.

(** X16. The range checks compare as [unsigned int].  When the number
    of cores that [sysconf] reports is negative, [cpu_init] fails but
    leaves that number in [cpu_count], and from then on the checks of
    [cpu_init_one] and [cpu_run_on_one] let every core number below
    [2 ^ 32 + cpu_count] through: the bring-up goes on to bind the
    thread, and the submission goes on to allocate a runner. *)
Theorem negative_cpu_count_passes_range_checks (sysconf_ret ds_ret : Z)
    (f : cpuinfo) (processor0 : Z) (env : bringup_env) (self cpu func data : Z)
    (st : state) :
  to_int sysconf_ret < 0 →
  0 ≤ cpu < 2 ^ 32 + to_int sysconf_ret →
  sched_setaffinity_ret env ≠ 0 →
  runners_mempool st !! self = Some [] →
  ∃ st1 st2 st3,
    cpu_init NCPU sysconf_ret ds_ret f processor0 st = Some (- EINVAL, st1) ∧
    cpu_count st1 = to_int sysconf_ret ∧
    cpu_init_one NCPU percpu_len env cpu st1 = Some (Returned (- EPERM), st2) ∧
    trace st2 = trace st ++ [EvSetAffinity cpu] ∧
    cpu_run_on_one self func data cpu st1 = Some (- ENOMEM, st3) ∧
    trace st3 = trace st ++ [EvAlloc self NULL].
Proof.
  intros Hneg Hcpu Haff Hpool.
  assert (Huint : to_uint (to_int sysconf_ret) = 2 ^ 32 + to_int sysconf_ret).
  { unfold to_uint.
    pose proof (Z.mod_pos_bound (sysconf_ret + 2 ^ 31) (2 ^ 32)) as Hb.
    unfold to_int in *.
    rewrite <- (Z.mod_add _ 1 (2 ^ 32)) by lia.
    rewrite Z.mod_small; lia. }
  set (st1 := set_cpu_count (to_int sysconf_ret) st).
  exists st1, (set_trace (trace st1 ++ [EvSetAffinity cpu]) st1),
    (set_trace (trace st1 ++ [EvAlloc self NULL]) st1).
  split.
  { unfold cpu_init. unfold_M. simpl.
    rewrite bool_decide_eq_true_2 by lia. reflexivity. }
  split; [reflexivity|]. split.
  { unfold cpu_init_one. unfold_M. simpl. rewrite Huint.
    rewrite bool_decide_eq_false_2 by lia.
    rewrite bool_decide_eq_true_2 by exact Haff. reflexivity. }
  split; [reflexivity|]. split; [|reflexivity].
  apply cpu_run_on_one_no_runner; simpl; [rewrite Huint; lia|exact Hpool].
Qed.

End InitFurther.

(** * The further properties on the example machines *)

Lemma cpu_run_on_one_pool_empty_witness :
  ∃ st',
    cpu_run_on_one 0 11 1 1 core_0_exhausted = Some (- ENOMEM, st') ∧
    trace st' = trace core_0_exhausted ++ [EvAlloc 0 NULL] ∧
    runlist st' = runlist core_0_exhausted ∧
    runners_mempool st' = runners_mempool core_0_exhausted ∧
    heap st' = heap core_0_exhausted.
Proof.
  apply (cpu_run_on_one_pool_empty 0 11 1 1 core_0_exhausted).
  - vm_compute. reflexivity.
  - vm_compute. reflexivity.
Defined.

Lemma cpu_run_on_one_keeps_invariant_witness :
  ∃ ret st' tr,
    cpu_run_on_one 0 11 1 1 two_cores = Some (ret, st') ∧
    (ret = 0 ∨ ret = - EINVAL ∨ ret = - ENOMEM) ∧
    trace st' = trace two_cores ++ tr ∧
    calls tr = [] ∧
    frees tr = [] ∧
    lock_discipline tr ∧
    inv st' (after_pushes tr (queue two_cores)) NULL [].
Proof.
  apply (cpu_run_on_one_keeps_invariant two_cores (queue two_cores) NULL []
           0 11 1 1).
  - apply well_formed_inv. vm_compute. reflexivity.
  - vm_compute. eauto.
  - lia.
Defined.

Lemma cpu_run_on_one_pushes_in_front_witness :
  ∃ st' rl',
    cpu_run_on_one 0 14 4 1 (state_after [work_A; work_B] two_cores)
    = Some (0, st') ∧
    runlist st' !! 1 = Some rl' ∧
    chain (heap st') (next_runner rl')
      ((102, 14, 4) :: queue (state_after [work_A; work_B] two_cores) 1) ∧
    ∀ c rl, c ≠ 1 →
            runlist (state_after [work_A; work_B] two_cores) !! c = Some rl →
            runlist st' !! c = Some rl ∧
            chain (heap st') (next_runner rl)
              (queue (state_after [work_A; work_B] two_cores) c).
Proof.
  apply (cpu_run_on_one_pushes_in_front
           (state_after [work_A; work_B] two_cores)
           (queue (state_after [work_A; work_B] two_cores)) NULL []
           0 14 4 1 102 [103]).
  - apply well_formed_inv. vm_compute. reflexivity.
  - vm_compute. split; [discriminate|reflexivity].
  - vm_compute. reflexivity.
Defined.

Lemma submit_each_exhausts_pool_witness :
  ∃ st',
    submit_each [work_A; work_C; work_D; work_A] two_cores
    = Some (replicate (length [work_A; work_C; work_D; work_A]
                       `min` length (pool two_cores 0)) 0
            ++ replicate (length [work_A; work_C; work_D; work_A]
                          - length (pool two_cores 0)) (- ENOMEM),
            st') ∧
    pool st' 0
    = drop (length [work_A; work_C; work_D; work_A]) (pool two_cores 0).
Proof.
  apply (submit_each_exhausts_pool [work_A; work_C; work_D; work_A] 0
           two_cores (queue two_cores) NULL []).
  - apply well_formed_inv. vm_compute. reflexivity.
  - vm_compute. eauto.
  - repeat (constructor; [split; [reflexivity|simpl; lia]|]). constructor.
Defined.

Lemma cpu_do_bookkeeping_reverse_order_witness :
  ∃ st2 tr,
    cpu_do_bookkeeping resubmitting_body
      (length [work_A; work_B; work_C; work_D]) 1
      (state_after [work_A; work_B; work_C; work_D] two_cores)
    = Some (tt, st2) ∧
    trace st2
    = trace (state_after [work_A; work_B; work_C; work_D] two_cores) ++ tr ∧
    calls tr
    = reverse ((λ s, (1, sub_func s, sub_data s))
                 <$> [work_A; work_B; work_C; work_D]).
Proof.
  apply (cpu_do_bookkeeping_reverse_order resubmitting_body two_cores
           (state_after [work_A; work_B; work_C; work_D] two_cores) 1
           (mk_cpu_runlist false NULL) [work_A; work_B; work_C; work_D]
           [0; 0; 0; 0]).
  - vm_compute. reflexivity.
  - simpl. lia.
  - vm_compute. reflexivity.
  - reflexivity.
  - repeat constructor.
  - apply resubmitting_body_on_cores. vm_compute. eauto.
  - vm_compute. reflexivity.
  - repeat constructor.
Defined.

Lemma cpu_do_bookkeeping_twice_witness :
  ∃ st1,
    cpu_do_bookkeeping quiet_body 2 1 (state_after [work_A; work_B] two_cores)
    = Some (tt, st1) ∧
    runlist st1 !! 1 = Some (mk_cpu_runlist false NULL) ∧
    ∀ fuel', cpu_do_bookkeeping quiet_body fuel' 1 st1 = Some (tt, st1).
Proof.
  apply (cpu_do_bookkeeping_twice quiet_body
           (state_after [work_A; work_B] two_cores) 1
           (mk_cpu_runlist false 201) 2).
  - vm_compute. reflexivity.
  - vm_compute. reflexivity.
  - vm_compute. lia.
  - reflexivity.
Defined.

Lemma cpu_do_bookkeeping_frees_what_it_ran_witness :
  ∃ st' tr Q',
    cpu_do_bookkeeping resubmitting_body 1 1 (state_after [work_C] two_cores)
    = Some (tt, st') ∧
    trace st' = trace (state_after [work_C] two_cores) ++ tr ∧
    calls tr = call_on 1 <$> queue (state_after [work_C] two_cores) 1 ∧
    frees tr = free_on 1 <$> queue (state_after [work_C] two_cores) 1 ∧
    NoDup (item_ptr <$> queue (state_after [work_C] two_cores) 1) ∧
    (∀ c, (length (pool st' c) + count_pool c (allocs tr)
           = length (pool (state_after [work_C] two_cores) c)
             + count_pool c (frees tr))%nat) ∧
    lock_discipline tr ∧
    inv st' Q' NULL [].
Proof.
  apply (cpu_do_bookkeeping_frees_what_it_ran resubmitting_body
           (state_after [work_C] two_cores) 1 (mk_cpu_runlist false 101) 1).
  - vm_compute. reflexivity.
  - vm_compute. reflexivity.
  - discriminate.
  - vm_compute. lia.
  - apply resubmitting_body_on_cores. vm_compute. eauto.
Defined.

Lemma self_submission_round_trip_witness :
  ∃ st1 st2,
    cpu_run_on_one 1 12 2 1 two_cores = Some (0, st1) ∧
    cpu_do_bookkeeping quiet_body 1 1 st1 = Some (tt, st2) ∧
    calls (drop (length (trace two_cores)) (trace st2)) = [(1, 12, 2)] ∧
    runlist st2 = runlist two_cores ∧
    runners_mempool st2 = runners_mempool two_cores.
Proof.
  apply (self_submission_round_trip quiet_body two_cores 1 12 2 201 [202] 0).
  - vm_compute. split; [discriminate|reflexivity].
  - vm_compute. reflexivity.
  - vm_compute. reflexivity.
  - discriminate.
  - reflexivity.
Defined.

Lemma cpu_init_one_frame_witness :
  cpu_count (state_brought_up 2 0 env_ok 1 (two_core_table table_of_two))
  = cpu_count (two_core_table table_of_two) ∧
  apicid_map (state_brought_up 2 0 env_ok 1 (two_core_table table_of_two))
  = apicid_map (two_core_table table_of_two) ∧
  runners_datastore
    (state_brought_up 2 0 env_ok 1 (two_core_table table_of_two))
  = runners_datastore (two_core_table table_of_two) ∧
  heap (state_brought_up 2 0 env_ok 1 (two_core_table table_of_two))
  = heap (two_core_table table_of_two) ∧
  ∀ c, c ≠ 1 →
       runlist (state_brought_up 2 0 env_ok 1 (two_core_table table_of_two))
         !! c
       = runlist (two_core_table table_of_two) !! c ∧
       runners_mempool
         (state_brought_up 2 0 env_ok 1 (two_core_table table_of_two)) !! c
       = runners_mempool (two_core_table table_of_two) !! c ∧
       cpu_id (state_brought_up 2 0 env_ok 1 (two_core_table table_of_two))
         !! c
       = cpu_id (two_core_table table_of_two) !! c ∧
       cpu_numa_node
         (state_brought_up 2 0 env_ok 1 (two_core_table table_of_two)) !! c
       = cpu_numa_node (two_core_table table_of_two) !! c ∧
       apicid (state_brought_up 2 0 env_ok 1 (two_core_table table_of_two))
         !! c
       = apicid (two_core_table table_of_two) !! c ∧
       percpu_offsets
         (state_brought_up 2 0 env_ok 1 (two_core_table table_of_two)) !! c
       = percpu_offsets (two_core_table table_of_two) !! c.
Proof.
  apply (cpu_init_one_frame 2 0 env_ok 1 (two_core_table table_of_two)
           (state_brought_up 2 0 env_ok 1 (two_core_table table_of_two))
           (Returned 0)).
  vm_compute. reflexivity.
Defined.

Lemma cpu_init_one_ready_witness :
  1 < to_uint (cpu_count (two_core_table table_of_two)) ∧
  getcpu_cpu env_ok = 1 ∧
  steps_of (drop (length (trace (two_core_table table_of_two)))
              (trace (state_brought_up 2 0 env_ok 1
                        (two_core_table table_of_two))))
  = all_steps ∧
  cpu_id (state_brought_up 2 0 env_ok 1 (two_core_table table_of_two)) !! 1
  = Some 1 ∧
  cpu_numa_node (state_brought_up 2 0 env_ok 1 (two_core_table table_of_two))
    !! 1
  = Some (getcpu_node env_ok) ∧
  (∃ k e, first_entry_for (apicid_map (two_core_table table_of_two)) 1 k e ∧
          apicid (state_brought_up 2 0 env_ok 1 (two_core_table table_of_two))
            !! 1
          = Some (to_uint (map_apicid e))) ∧
  log_is_early_boot
    (state_brought_up 2 0 env_ok 1 (two_core_table table_of_two)) = false ∧
  runlist (state_brought_up 2 0 env_ok 1 (two_core_table table_of_two)) !! 1
  = Some (mk_cpu_runlist false NULL) ∧
  runners_mempool
    (state_brought_up 2 0 env_ok 1 (two_core_table table_of_two)) !! 1
  = Some (mempool_create_objs env_ok) ∧
  ∀ body fuel,
    cpu_do_bookkeeping body fuel 1
      (state_brought_up 2 0 env_ok 1 (two_core_table table_of_two))
    = Some (tt, state_brought_up 2 0 env_ok 1 (two_core_table table_of_two)).
Proof.
  apply (cpu_init_one_ready 2 0 env_ok 1 (two_core_table table_of_two)
           (state_brought_up 2 0 env_ok 1 (two_core_table table_of_two))).
  vm_compute. reflexivity.
Defined.

Lemma cpu_init_percpu_window_witness :
  ∃ st' nr,
    cpu_init_percpu 2 4096 env_ok 1 0 (two_core_table table_of_two)
    = Some (mem_alloc_pages_onnode env_ok, st') ∧
    trace st'
    = trace (two_core_table table_of_two) ++ [EvAllocPages nr PGSIZE_2MB 0] ∧
    (nr - 1) * PGSIZE_2MB < PERCPU_DUNE_LEN + 4096 ≤ nr * PGSIZE_2MB ∧
    percpu_offsets st' !! 1
    = Some (mem_alloc_pages_onnode env_ok + PERCPU_DUNE_LEN) ∧
    runlist st' !! 1 = Some (mk_cpu_runlist false NULL) ∧
    runners_mempool st' !! 1 = Some [] ∧
    cpu_id st' !! 1 = Some 0 ∧
    cpu_numa_node st' !! 1 = Some 0 ∧
    apicid st' !! 1 = Some 0.
Proof.
  apply (cpu_init_percpu_window 2 4096 env_ok 1 0
           (two_core_table table_of_two)).
  - lia.
  - simpl. lia.
  - vm_compute. discriminate.
  - vm_compute. discriminate.
Defined.

Lemma cpu_init_one_unused_slot_witness :
  (0 = 0 →
   ∃ st',
     cpu_init_one 2 0 env_core_0 0 (two_core_table table_of_core_1)
     = Some (Returned (mempool_create_ret env_core_0), st') ∧
     apicid st' !! 0 = Some 0) ∧
  (0 ≠ 0 →
   ∃ st',
     cpu_init_one 2 0 env_core_0 0 (two_core_table table_of_core_1)
     = Some (AssertFailed, st')).
Proof.
  apply (cpu_init_one_unused_slot 2 0 env_core_0 0
           (two_core_table table_of_core_1) [mk_apicid_entry 1 11] 0).
  - vm_compute. reflexivity.
  - simpl. lia.
  - reflexivity.
  - reflexivity.
  - repeat split; vm_compute; congruence.
  - intros e He. apply list_elem_of_singleton in He as ->.
    vm_compute. discriminate.
Defined.

Lemma parse_cpuinfo_table_overflow_witness :
  parse_cpuinfo 1 cpuinfo_out_of_order 0
    (set_apicid_map [mk_apicid_entry 0 0] empty_state)
  = None.
Proof.
  apply (parse_cpuinfo_table_overflow 1 cpuinfo_out_of_order 0
           (set_apicid_map [mk_apicid_entry 0 0] empty_state)).
  - reflexivity.
  - vm_compute. lia.
Defined.

Lemma cpu_init_result_witness :
  ∃ ret st',
    cpu_init 4 2 0 cpuinfo_of_two 0 fresh_table = Some (ret, st') ∧
    (ret = 0 ↔ 0 < to_int 2 ≤ Z.of_nat 4 ∧ 0 = 0 ∧
               scan_fails cpuinfo_of_two = false) ∧
    cpu_count st' = to_int 2 ∧
    (ret = 0 →
     runners_datastore st' = true ∧
     apicid_map st'
     = overwrite 0 (records (fgets_lines cpuinfo_of_two) 0)
         (apicid_map fresh_table)) ∧
    (0 < to_int 2 ≤ Z.of_nat 4 → 0 ≠ 0 →
     ret = 0 ∧
     runners_datastore st' = runners_datastore fresh_table ∧
     trace st'
     = trace fresh_table ++ [EvLogInfo; EvCreateDatastore MAX_RUNNERS]) ∧
    (0 < to_int 2 ≤ Z.of_nat 4 → 0 = 0 →
     scan_fails cpuinfo_of_two = true →
     ret = - EIO ∧ runners_datastore st' = true).
Proof.
  apply (cpu_init_result 4 2 0 cpuinfo_of_two 0 fresh_table).
  - reflexivity.
  - vm_compute. lia.
Defined.

Lemma cpu_init_then_cpu_init_one_witness :
  ∃ st1 st2,
    cpu_init 4 2 0 cpuinfo_of_two 0 fresh_table = Some (0, st1) ∧
    cpu_init_one 4 0 env_ok 1 st1
    = Some (Returned (mempool_create_ret env_ok), st2) ∧
    apicid st2 !! 1 = Some (to_uint (map_apicid (mk_apicid_entry 1 11))).
Proof.
  apply (cpu_init_then_cpu_init_one 4 0 2 cpuinfo_of_two 0 env_ok 1 fresh_table
           1 (mk_apicid_entry 1 11)).
  - reflexivity.
  - vm_compute. split; [reflexivity|discriminate].
  - vm_compute. reflexivity.
  - vm_compute. lia.
  - vm_compute. split; [discriminate|reflexivity].
  - repeat split; vm_compute; congruence.
  - split; [vm_compute; reflexivity|]. split; [reflexivity|].
    intros [|j] e' Hj He'; [|lia].
    vm_compute in He'. injection He' as <-. vm_compute. discriminate.
Defined.

Lemma negative_cpu_count_passes_range_checks_witness :
  ∃ st1 st2 st3,
    cpu_init 4 (-1) 0 cpuinfo_of_two 0 core_0_exhausted
    = Some (- EINVAL, st1) ∧
    cpu_count st1 = to_int (-1) ∧
    cpu_init_one 4 0 env_no_affinity 7 st1 = Some (Returned (- EPERM), st2) ∧
    trace st2 = trace core_0_exhausted ++ [EvSetAffinity 7] ∧
    cpu_run_on_one 0 11 1 7 st1 = Some (- ENOMEM, st3) ∧
    trace st3 = trace core_0_exhausted ++ [EvAlloc 0 NULL].
Proof.
  apply (negative_cpu_count_passes_range_checks 4 0 (-1) 0 cpuinfo_of_two 0
           env_no_affinity 0 7 11 1 core_0_exhausted).
  - vm_compute. reflexivity.
  - vm_compute. split; [discriminate|reflexivity].
  - vm_compute. discriminate.
  - vm_compute. reflexivity.
Defined.
